(** * Config Service API (practica3/api): a shallow embedding

    The development follows [api/server.js] and the two model definitions
    [api/models/Environment.js] and [api/models/Variable.js].

    - [Js]      the JavaScript primitives the handlers call
                ([toUpperCase], [toLowerCase], [endsWith], [substring],
                [parseInt], [Math.ceil], property assignment on an object
                literal);
    - [Db]      the two tables with the constraints the models declare
                (unique name, composite unique index, foreign key with
                ON DELETE CASCADE) and the ORM calls the handlers make;
    - [Server]  the middlewares, the route handlers, the router and the
                global error handler.

    Strings are sequences of 8-bit characters; case mapping and white space
    are those of the ASCII range.  The columns [created_at] and [updated_at]
    are written by the ORM only and read by no handler: they are left out of
    the rows. *)

From Stdlib Require Import ZArith Lia Ascii String List Bool Permutation.
From Stdlib Require DecimalString DecimalNat.
From stdpp Require Import gmap strings list fin_maps sorting.

Local Open Scope string_scope.
Local Open Scope Z_scope.

(* ===================================================================== *)
(** ** JavaScript primitives *)
(* ===================================================================== *)

Module Js.

(** A member of a JSON request body, read at the type of its column: the
    key is absent ([undefined]), holds [null], or holds a value. *)
Inductive Field (A : Type) : Type :=
| Undefined
| Null
| Value (a : A).
Arguments Undefined {A}.
Arguments Null {A}.
Arguments Value {A} a.

(** [x !== undefined] *)
Definition is_defined {A} (x : Field A) : bool :=
  match x with Undefined => false | _ => true end.

(** A nullable column: [undefined] and [null] are both stored as NULL. *)
Definition to_nullable {A} (x : Field A) : option A :=
  match x with Value a => Some a | _ => None end.

Definition of_nullable {A} (x : option A) : Field A :=
  match x with Some a => Value a | None => Null end.

(** *** Characters *)

Definition code (c : ascii) : N := N_of_ascii c.

Definition is_lower (c : ascii) : bool := ((97 <=? code c) && (code c <=? 122))%N.
Definition is_upper (c : ascii) : bool := ((65 <=? code c) && (code c <=? 90))%N.
Definition is_digit (c : ascii) : bool := ((48 <=? code c) && (code c <=? 57))%N.

Definition upper_char (c : ascii) : ascii :=
  if is_lower c then ascii_of_N (code c - 32) else c.

Definition lower_char (c : ascii) : ascii :=
  if is_upper c then ascii_of_N (code c + 32) else c.

(** TAB, LF, VT, FF, CR, SP *)
Definition is_space (c : ascii) : bool :=
  (((9 <=? code c) && (code c <=? 13)) || (code c =? 32))%N.

(** *** Strings *)

Fixpoint map_chars (f : ascii -> ascii) (s : string) : string :=
  match s with
  | EmptyString => EmptyString
  | String c s' => String (f c) (map_chars f s')
  end.

(** The characters of a string, in order. *)
Fixpoint chars (s : string) : list ascii :=
  match s with
  | EmptyString => []
  | String c s' => c :: chars s'
  end.

(** [s.toUpperCase()] *)
Definition toUpperCase (s : string) : string := map_chars upper_char s.

(** [s.toLowerCase()] *)
Definition toLowerCase (s : string) : string := map_chars lower_char s.

(** [s.substring(start, end)] for [0 <= start <= end] *)
Definition substring (s : string) (start stop : nat) : string :=
  String.substring start (stop - start) s.

(** [s.endsWith(suffix)] *)
Definition endsWith (s suffix : string) : bool :=
  let n := String.length s in
  let m := String.length suffix in
  (m <=? n)%nat && String.eqb (String.substring (n - m) m s) suffix.

(** *** [parseInt]

    [parseInt(x)] with no radix: [x] is converted to a string
    ([undefined] becomes the text "undefined"), leading white space is
    skipped, a sign is read, a prefix [0x] or [0X] selects radix 16, and
    the longest prefix of digits is the value.  [None] is [NaN]. *)

Definition digit_value (c : ascii) : option Z :=
  if is_digit c then Some (Z.of_N (code c) - 48)
  else if is_lower c then Some (Z.of_N (code c) - 97 + 10)
  else if is_upper c then Some (Z.of_N (code c) - 65 + 10)
  else None.

Definition digit_in (radix : Z) (c : ascii) : option Z :=
  match digit_value c with
  | Some d => if d <? radix then Some d else None
  | None => None
  end.

Fixpoint skip_spaces (s : string) : string :=
  match s with
  | String c s' => if is_space c then skip_spaces s' else s
  | EmptyString => EmptyString
  end.

(** Reads digits while there are some; [acc] is [None] until the first
    digit has been read. *)
Fixpoint read_digits (radix : Z) (acc : option Z) (s : string) : option Z :=
  match s with
  | EmptyString => acc
  | String c s' =>
      match digit_in radix c with
      | Some d =>
          read_digits radix
            (Some (match acc with Some a => a * radix + d | None => d end)) s'
      | None => acc
      end
  end.

Definition read_unsigned (s : string) : option Z :=
  match s with
  | String "0" (String "x" s') => read_digits 16 None s'
  | String "0" (String "X" s') => read_digits 16 None s'
  | _ => read_digits 10 None s
  end.

Definition parseInt_string (s : string) : option Z :=
  match skip_spaces s with
  | String "-" s' => Z.opp <$> read_unsigned s'
  | String "+" s' => read_unsigned s'
  | s' => read_unsigned s'
  end.

Definition parseInt (x : option string) : option Z :=
  match x with
  | Some s => parseInt_string s
  | None => parseInt_string "undefined"
  end.

(** [x || d] on a number: [NaN] and [0] are falsy. *)
Definition or_default (x : option Z) (d : Z) : Z :=
  match x with
  | Some n => if n =? 0 then d else n
  | None => d
  end.

(** [Math.ceil(a / b)] for [b <> 0]: [Z.div] rounds down. *)
Definition ceil_div (a b : Z) : Z := - ((- a) / b).

(** *** Property assignment on an object created by [{}]

    [acc[k] = v] with [v] a string.  The key ["__proto__"] is the
    accessor inherited from [Object.prototype]: its setter ignores a value
    that is neither an object nor [null], so no own property is created.
    Every other key becomes (or overwrites) an own property. *)
Definition set_property (acc : gmap string string) (k v : string)
  : gmap string string :=
  if String.eqb k "__proto__" then acc else <[k := v]> acc.

End Js.

(* ===================================================================== *)
(** ** The tables and the ORM calls *)
(* ===================================================================== *)

(** A row of [environments] (models/Environment.js). *)
Module Environment.
Record t : Type := mk {
  id : Z;
  name : string;
  description : option string
}.

#[global] Instance eq_dec : EqDecision t.
Proof. solve_decision. Defined.
End Environment.

(** A row of [variables] (models/Variable.js); [environment_id] is the
    foreign key the association adds.  ([Variable] is a reserved word.) *)
Module Variable_.
Record t : Type := mk {
  id : Z;
  name : string;
  value : string;
  description : option string;
  is_sensitive : bool;
  environment_id : Z
}.

#[global] Instance eq_dec : EqDecision t.
Proof. solve_decision. Defined.

(** The columns of the composite unique index. *)
Definition key (v : t) : Z * string := (environment_id v, name v).
End Variable_.

(** The store holds the two tables.  An ORM call is what the declarations
    of the models make of it:
    - [allowNull: false] is validated by the ORM before a statement is
      issued and raises [SequelizeValidationError];
    - [STRING(100)], [unique: true], the unique index on
      [environment_id, name] and the foreign key are checked by the store
      when a row is written and raise [SequelizeDatabaseError],
      [SequelizeUniqueConstraintError] and
      [SequelizeForeignKeyConstraintError];
    - [onDelete: 'CASCADE'] removes the variables of a destroyed
      environment.
    New rows take their [id] from the sequence of their table. *)
Module Db.
Import Js.

(** *** Exceptions *)

Record ValidationErrorItem : Type := { item_message : string }.

Record JsError : Type := {
  name : string;
  message : string;
  stack : string;
  errors : list ValidationErrorItem
}.

(** The first line of the stack is the error's name and message. *)
Definition new_error (n m : string) (items : list ValidationErrorItem) : JsError :=
  {| name := n; message := m; stack := n +:+ ": " +:+ m; errors := items |}.

Definition TypeError (m : string) : JsError := new_error "TypeError" m [].

Definition SequelizeValidationError (items : list ValidationErrorItem) : JsError :=
  new_error "SequelizeValidationError" "Validation error" items.

Definition SequelizeUniqueConstraintError (fields : list string) : JsError :=
  new_error "SequelizeUniqueConstraintError" "Validation error"
    (map (fun f => {| item_message := f +:+ " must be unique" |}) fields).

Definition SequelizeDatabaseError (m : string) : JsError :=
  new_error "SequelizeDatabaseError" m [].

Definition SequelizeForeignKeyConstraintError (m : string) : JsError :=
  new_error "SequelizeForeignKeyConstraintError" m [].

Inductive Completion (A : Type) : Type :=
| Return (a : A)
| Throw (e : JsError).
Arguments Return {A} a.
Arguments Throw {A} e.

(** *** The store *)

Record Store : Type := {
  environments : list Environment.t;
  variables : list Variable_.t;
  environments_id_seq : Z;
  variables_id_seq : Z
}.

Definition empty : Store :=
  {| environments := []; variables := [];
     environments_id_seq := 1; variables_id_seq := 1 |}.

(** [STRING(100)]: the column is [VARCHAR(100)]. *)
Definition too_long (s : string) : bool := (100 <? String.length s)%nat.

Definition value_too_long : JsError :=
  SequelizeDatabaseError "value too long for type character varying(100)".

Definition not_null (model field : string) : ValidationErrorItem :=
  {| item_message := model +:+ "." +:+ field +:+ " cannot be null" |}.

(** [allowNull: false]: one item for an attribute that is [undefined] or
    [null]. *)
Definition check_not_null {A} (model field : string) (x : Field A)
  : list ValidationErrorItem :=
  match x with
  | Value _ => []
  | _ => [not_null model field]
  end.

(** [UPDATE ... WHERE id = i]: every row with the key [i] is replaced. *)
Definition replace_row {A} (id : A -> Z) (i : Z) (row' : A) (l : list A) : list A :=
  map (fun r => if id r =? i then row' else r) l.

(** *** Environment *)

(** The setter of [name]: [this.setDataValue('name', value.toUpperCase())].
    Reading [toUpperCase] of [undefined] or [null] throws. *)
Definition Environment_set_name (value : Field string) : Completion string :=
  match value with
  | Value s => Return (toUpperCase s)
  | Undefined =>
      Throw (TypeError "Cannot read properties of undefined (reading 'toUpperCase')")
  | Null =>
      Throw (TypeError "Cannot read properties of null (reading 'toUpperCase')")
  end.

(** [Environment.findOne({ where: { name } })] *)
Definition Environment_findOne (st : Store) (n : string) : option Environment.t :=
  List.find (fun e => String.eqb (Environment.name e) n) (environments st).

(** [Environment.create({ name, description })] *)
Definition Environment_create (st : Store) (name description : Field string)
  : Store * Completion Environment.t :=
  match Environment_set_name name with
  | Throw err => (st, Throw err)
  | Return n =>
      if too_long n then (st, Throw value_too_long)
      else if existsb (fun e => String.eqb (Environment.name e) n) (environments st)
      then (st, Throw (SequelizeUniqueConstraintError ["name"]))
      else
        let e := {| Environment.id := environments_id_seq st;
                    Environment.name := n;
                    Environment.description := to_nullable description |} in
        ({| environments := environments st ++ [e];
            variables := variables st;
            environments_id_seq := environments_id_seq st + 1;
            variables_id_seq := variables_id_seq st |},
         Return e)
  end.

(** [environment.update({ description })]: an [undefined] value is
    dropped from the update. *)
Definition Environment_update (st : Store) (e : Environment.t)
    (description : Field string) : Store * Completion Environment.t :=
  match description with
  | Undefined => (st, Return e)
  | _ =>
      let e' := {| Environment.id := Environment.id e;
                   Environment.name := Environment.name e;
                   Environment.description := to_nullable description |} in
      ({| environments :=
            replace_row Environment.id (Environment.id e) e' (environments st);
          variables := variables st;
          environments_id_seq := environments_id_seq st;
          variables_id_seq := variables_id_seq st |},
       Return e')
  end.

(** [environment.destroy()]: the row goes, and with it every row of
    [variables] that references it ([onDelete: 'CASCADE']). *)
Definition Environment_destroy (st : Store) (e : Environment.t) : Store :=
  {| environments :=
       List.filter (fun r => negb (Environment.id r =? Environment.id e))
                   (environments st);
     variables :=
       List.filter (fun v => negb (Variable_.environment_id v =? Environment.id e))
                   (variables st);
     environments_id_seq := environments_id_seq st;
     variables_id_seq := variables_id_seq st |}.

(** [Environment.findByPk(id, { include: variables })]: the row and the
    variables that reference it. *)
Definition Environment_findByPk (st : Store) (id : Z)
  : option (Environment.t * list Variable_.t) :=
  match List.find (fun e => Environment.id e =? id) (environments st) with
  | Some e =>
      Some (e, List.filter (fun v => Variable_.environment_id v =? id) (variables st))
  | None => None
  end.

(** *** Variable *)

(** [Variable.findOne({ where: { environment_id, name } })] *)
Definition Variable_findOne (st : Store) (environment_id : Z) (n : string)
  : option Variable_.t :=
  List.find (fun v => (Variable_.environment_id v =? environment_id)
                      && String.eqb (Variable_.name v) n)
            (variables st).

Definition key_eqb (k1 k2 : Z * string) : bool :=
  (fst k1 =? fst k2) && String.eqb (snd k1) (snd k2).

Definition environment_exists (st : Store) (id : Z) : bool :=
  existsb (fun e => Environment.id e =? id) (environments st).

Definition foreign_key_violation : JsError :=
  SequelizeForeignKeyConstraintError
    "insert or update on table variables violates foreign key constraint".

(** [Variable.create({ name, value, description, is_sensitive,
    environment_id })].  The attributes declared [allowNull: false] are
    validated first; then the row is inserted, subject to the column
    width, the composite unique index and the foreign key. *)
Definition Variable_create (st : Store) (name value description : Field string)
    (is_sensitive : Field bool) (environment_id : Z)
  : Store * Completion Variable_.t :=
  match name, value, is_sensitive with
  | Value n, Value x, Value b =>
      let v := {| Variable_.id := variables_id_seq st;
                  Variable_.name := n;
                  Variable_.value := x;
                  Variable_.description := to_nullable description;
                  Variable_.is_sensitive := b;
                  Variable_.environment_id := environment_id |} in
      if too_long n then (st, Throw value_too_long)
      else if existsb (fun r => key_eqb (Variable_.key r) (Variable_.key v)) (variables st)
      then (st, Throw (SequelizeUniqueConstraintError ["environment_id"; "name"]))
      else if negb (environment_exists st environment_id)
      then (st, Throw foreign_key_violation)
      else
        ({| environments := environments st;
            variables := variables st ++ [v];
            environments_id_seq := environments_id_seq st;
            variables_id_seq := variables_id_seq st + 1 |},
         Return v)
  | _, _, _ =>
      (st, Throw (SequelizeValidationError
                    (check_not_null "Variable" "name" name
                     ++ check_not_null "Variable" "value" value
                     ++ check_not_null "Variable" "is_sensitive" is_sensitive)%list))
  end.

(** The values handed to [variable.update(values)].  [environment_id] is
    absent or a number. *)
Record VariableValues : Type := {
  set_name : Field string;
  set_value : Field string;
  set_description : Field string;
  set_is_sensitive : Field bool;
  set_environment_id : option Z
}.

(** An [undefined] value is dropped from the update and the attribute
    keeps its current value. *)
Definition updated {A} (x : Field A) (current : A) : A :=
  match x with Value a => a | _ => current end.

Definition updated_nullable {A} (x : Field A) (current : option A) : option A :=
  match x with Undefined => current | Null => None | Value a => Some a end.

(** [allowNull: false] on update: only an attribute set to [null] fails. *)
Definition check_not_null_set {A} (model field : string) (x : Field A)
  : list ValidationErrorItem :=
  match x with
  | Null => [not_null model field]
  | _ => []
  end.

(** The instance after [this.set(values)]. *)
Definition updated_row (v : Variable_.t) (values : VariableValues) : Variable_.t :=
  {| Variable_.id := Variable_.id v;
     Variable_.name := updated (set_name values) (Variable_.name v);
     Variable_.value := updated (set_value values) (Variable_.value v);
     Variable_.description :=
       updated_nullable (set_description values) (Variable_.description v);
     Variable_.is_sensitive :=
       updated (set_is_sensitive values) (Variable_.is_sensitive v);
     Variable_.environment_id :=
       default (Variable_.environment_id v) (set_environment_id values) |}.

(** [variable.update(values)]: sets the attributes, validates the ones
    that were set, and issues an UPDATE when something changed.  The store
    checks the width of a name that is written, the unique index when the
    pair of environment and name changes, and the foreign key when the
    environment changes. *)
Definition Variable_update (st : Store) (v : Variable_.t) (values : VariableValues)
  : Store * Completion Variable_.t :=
  match (check_not_null_set "Variable" "name" (set_name values)
         ++ check_not_null_set "Variable" "value" (set_value values)
         ++ check_not_null_set "Variable" "is_sensitive" (set_is_sensitive values))%list with
  | item :: items => (st, Throw (SequelizeValidationError (item :: items)))
  | [] =>
      let v' := updated_row v values in
      if decide (v' = v) then (st, Return v)
      else if is_defined (set_name values) && too_long (Variable_.name v')
      then (st, Throw value_too_long)
      else if negb (key_eqb (Variable_.key v') (Variable_.key v))
              && existsb (fun r => negb (Variable_.id r =? Variable_.id v)
                                   && key_eqb (Variable_.key r) (Variable_.key v'))
                         (variables st)
      then (st, Throw (SequelizeUniqueConstraintError ["environment_id"; "name"]))
      else if negb (Variable_.environment_id v' =? Variable_.environment_id v)
              && negb (environment_exists st (Variable_.environment_id v'))
      then (st, Throw foreign_key_violation)
      else
        ({| environments := environments st;
            variables :=
              replace_row Variable_.id (Variable_.id v) v' (variables st);
            environments_id_seq := environments_id_seq st;
            variables_id_seq := variables_id_seq st |},
         Return v')
  end.

(** [variable.destroy()] *)
Definition Variable_destroy (st : Store) (v : Variable_.t) : Store :=
  {| environments := environments st;
     variables :=
       List.filter (fun r => negb (Variable_.id r =? Variable_.id v)) (variables st);
     environments_id_seq := environments_id_seq st;
     variables_id_seq := variables_id_seq st |}.

(** *** [findAndCountAll({ limit, offset, order: [['name', 'ASC']] })]

    The order of names is the collation of the database: a parameter. *)
Section Ordered.
Context (collate : string -> string -> bool).

Definition order_by {A} (name : A -> string) (rows : list A) : list A :=
  merge_sort (fun a b => collate (name a) (name b)) rows.

(** The count is that of all the rows; LIMIT and OFFSET are rejected by
    the store when negative. *)
Definition page_of {A} (rows : list A) (limit offset : Z)
  : Completion (Z * list A) :=
  if limit <? 0 then Throw (SequelizeDatabaseError "LIMIT must not be negative")
  else if offset <? 0 then Throw (SequelizeDatabaseError "OFFSET must not be negative")
  else Return (Z.of_nat (length rows),
               take (Z.to_nat limit) (drop (Z.to_nat offset) rows)).

Definition Environment_findAndCountAll (st : Store) (limit offset : Z)
  : Completion (Z * list Environment.t) :=
  page_of (order_by Environment.name (environments st)) limit offset.

Definition Variable_findAndCountAll (st : Store) (environment_id limit offset : Z)
  : Completion (Z * list Variable_.t) :=
  page_of (order_by Variable_.name
             (List.filter (fun v => Variable_.environment_id v =? environment_id)
                          (variables st)))
          limit offset.
End Ordered.

(** *** The constraints of the schema

    Primary keys, the unique name of an environment, the composite unique
    index of a variable, and the foreign key. *)
Record store_ok (st : Store) : Prop := {
  environments_pkey : List.NoDup (map Environment.id (environments st));
  environments_name_key : List.NoDup (map Environment.name (environments st));
  environments_id_fresh :
    forall e, In e (environments st) -> Environment.id e < environments_id_seq st;
  variables_pkey : List.NoDup (map Variable_.id (variables st));
  variables_environment_id_name : List.NoDup (map Variable_.key (variables st));
  variables_id_fresh :
    forall v, In v (variables st) -> Variable_.id v < variables_id_seq st;
  variables_environment_id_fkey :
    forall v, In v (variables st) ->
      environment_exists st (Variable_.environment_id v) = true
}.

(** What the setter of [name] and the width of the columns make of the
    stored names: the name of an environment is in upper case, and every
    name fits [VARCHAR(100)]. *)
Record names_ok (st : Store) : Prop := {
  environments_name_upper :
    forall e, In e (environments st) ->
      toUpperCase (Environment.name e) = Environment.name e;
  environments_name_fits :
    forall e, In e (environments st) -> too_long (Environment.name e) = false;
  variables_name_fits :
    forall v, In v (variables st) -> too_long (Variable_.name v) = false
}.
End Db.

(* ===================================================================== *)
(** ** The server (api/server.js) *)
(* ===================================================================== *)

Module Server.
Import Js Db.

Inductive Method : Type := GET | POST | PUT | PATCH | DELETE.

Definition method_name (m : Method) : string :=
  match m with
  | GET => "GET" | POST => "POST" | PUT => "PUT"
  | PATCH => "PATCH" | DELETE => "DELETE"
  end.

(** [req.body]: the members the handlers and the models read, each at the
    type of its column ([environment_id] is absent or a number).  A member
    of another name is no attribute of a model and is ignored. *)
Record Body : Type := {
  name : Field string;
  value : Field string;
  description : Field string;
  is_sensitive : Field bool;
  environment_id : option Z
}.

(** The body [{}]. *)
Definition no_body : Body :=
  {| name := Undefined; value := Undefined; description := Undefined;
     is_sensitive := Undefined; environment_id := None |}.

(** A request: [path] holds the decoded segments of the URL's path,
    [query_page] and [query_limit] are [req.query.page] and
    [req.query.limit]. *)
Record Request : Type := {
  method : Method;
  originalUrl : string;
  path : list string;
  query_page : option string;
  query_limit : option string;
  body : Body
}.

(** The objects the handlers pass to [res.json] and [res.send]. *)
Inductive Payload : Type :=
| Text (text : string)
| Empty
| Message (message : string)
| Error (error message : string)
| InternalError (error message details : string)
| EnvironmentData (message : string) (data : Environment.t)
| EnvironmentPage (total_items total_pages current_page : Z)
                  (environments : list Environment.t)
| FlatConfig (flatConfig : gmap string string)
| VariableData (message : string) (data : Variable_.t)
| VariablePage (environment_name : string)
               (total_items total_pages current_page : Z)
               (variables : list Variable_.t).

(** [NoResponse]: the handler's promise was rejected outside its [try]
    and nothing is sent. *)
Inductive Response : Type :=
| Respond (status : Z) (payload : Payload)
| NoResponse.

Definition status_of (r : Response) : option Z :=
  match r with Respond s _ => Some s | NoResponse => None end.

(** What a request leaves behind: the store, the response, and the lines
    written by [console.error]. *)
Record Outcome : Type := {
  db : Store;
  response : Response;
  console : list string
}.

Definition reply (st : Store) (r : Response) : Outcome :=
  {| db := st; response := r; console := [] |}.

(** A request with no query string. *)
Definition request (m : Method) (segments : list string) (b : Body) : Request :=
  {| method := m;
     originalUrl := fold_right (fun seg url => "/" +:+ seg +:+ url) "" segments;
     path := segments;
     query_page := None;
     query_limit := None;
     body := b |}.

(** The body [{ name, value }]. *)
Definition name_value (n x : string) : Body :=
  {| name := Value n; value := Value x; description := Undefined;
     is_sensitive := Undefined; environment_id := None |}.

(** The body [{ name }]. *)
Definition name_only (n : string) : Body :=
  {| name := Value n; value := Undefined; description := Undefined;
     is_sensitive := Undefined; environment_id := None |}.



(** *** Error handling *)

(** The global error handler middleware. *)
Definition error_handler (st : Store) (err : JsError) : Outcome :=
  {| db := st;
     response :=
       Respond 500
         (InternalError "Internal Server Error"
                        "An unexpected error occurred on the server side."
                        (Db.message err));
     console := [Db.stack err] |}.

(** The [catch] clause of a handler: an error whose name is one of
    [names] is answered with 400 and the message of its first item; any
    other goes to [next(error)]. *)
Definition catch (names : list string) (st : Store) (error : JsError) : Outcome :=
  if existsb (String.eqb (Db.name error)) names then
    match Db.errors error with
    | item :: _ => reply st (Respond 400 (Error "Validation Error" (item_message item)))
    | [] => reply st NoResponse
    end
  else error_handler st error.

Definition unique_or_validation : list string :=
  ["SequelizeUniqueConstraintError"; "SequelizeValidationError"].

Definition validation_only : list string := ["SequelizeValidationError"].

(** *** Middlewares *)

(** [findEnvironment]: the response it sends, or the environment it
    attaches to the request. *)
Definition findEnvironment (st : Store) (param : string)
  : Response + Environment.t :=
  let env_name :=
    if endsWith (toLowerCase param) ".json"
    then substring param 0 (String.length param - 5)
    else param in
  let env_name := toUpperCase env_name in
  match Environment_findOne st env_name with
  | None =>
      inl (Respond 404
             (Error "Not Found" ("Environment '" +:+ env_name +:+ "' not found.")))
  | Some environment => inr environment
  end.

(** The name [findEnvironment] looks up for a parameter. *)
Definition lookup_name (param : string) : string :=
  toUpperCase
    (if endsWith (toLowerCase param) ".json"
     then substring param 0 (String.length param - 5)
     else param).

(** [findVariable], after [findEnvironment]. *)
Definition findVariable (st : Store) (environment : Environment.t) (var_name : string)
  : Response + Variable_.t :=
  match Variable_findOne st (Environment.id environment) var_name with
  | None =>
      inl (Respond 404
             (Error "Not Found"
                ("Variable '" +:+ var_name +:+ "' not found in environment '"
                 +:+ Environment.name environment +:+ "'.")))
  | Some variable => inr variable
  end.

(** Runs [k] on the environment, or sends the middleware's response. *)
Definition with_environment (st : Store) (env_name : string)
    (k : Environment.t -> Outcome) : Outcome :=
  match findEnvironment st env_name with
  | inl r => reply st r
  | inr environment => k environment
  end.

Definition with_variable (st : Store) (env_name var_name : string)
    (k : Environment.t -> Variable_.t -> Outcome) : Outcome :=
  with_environment st env_name (fun environment =>
    match findVariable st environment var_name with
    | inl r => reply st r
    | inr variable => k environment variable
    end).

(** *** Handlers *)

(** [GET /status/] *)
Definition get_status (st : Store) : Outcome := reply st (Respond 200 (Text "pong")).

(** [variables.reduce((acc, variable) => { acc[variable.name] =
    variable.value; return acc }, init)] *)
Definition flatten_from (init : gmap string string) (variables : list Variable_.t)
  : gmap string string :=
  fold_left (fun acc variable =>
               set_property acc (Variable_.name variable) (Variable_.value variable))
            variables init.

(** The reduction of the massive-consumption endpoint starts from [{}]. *)
Definition flatten (variables : list Variable_.t) : gmap string string :=
  flatten_from ∅ variables.

(** [GET /environments/:env_name.json] *)
Definition get_environment_json (st : Store) (env_name : string) : Outcome :=
  with_environment st env_name (fun req_environment =>
    match Environment_findByPk st (Environment.id req_environment) with
    | Some (environment, variables) =>
        reply st (Respond 200 (FlatConfig (flatten variables)))
    | None =>
        error_handler st
          (TypeError "Cannot read properties of null (reading 'variables')")
    end).

Section Collation.
Context (collate : string -> string -> bool).

(** [GET /environments/] *)
Definition list_environments (st : Store) (query_page query_limit : option string)
  : Outcome :=
  let page := or_default (parseInt query_page) 1 in
  let limit := or_default (parseInt query_limit) 10 in
  let offset := (page - 1) * limit in
  match Environment_findAndCountAll collate st limit offset with
  | Return (count, environments) =>
      reply st (Respond 200
                  (EnvironmentPage count (ceil_div count limit) page environments))
  | Throw error => error_handler st error
  end.

(** [GET /environments/:env_name/variables] *)
Definition list_variables (st : Store) (env_name : string)
    (query_page query_limit : option string) : Outcome :=
  with_environment st env_name (fun environment =>
    let page := or_default (parseInt query_page) 1 in
    let limit := or_default (parseInt query_limit) 10 in
    let offset := (page - 1) * limit in
    match Variable_findAndCountAll collate st (Environment.id environment)
                                   limit offset with
    | Return (count, variables) =>
        reply st (Respond 200
                    (VariablePage (Environment.name environment) count
                                  (ceil_div count limit) page variables))
    | Throw error => error_handler st error
    end).
End Collation.

(** [POST /environments/] *)
Definition post_environment (st : Store) (b : Body) : Outcome :=
  match Environment_create st (name b) (description b) with
  | (st', Return newEnvironment) =>
      reply st' (Respond 201
                   (EnvironmentData "Environment created successfully" newEnvironment))
  | (st', Throw error) => catch unique_or_validation st' error
  end.

(** [GET /environments/:env_name] *)
Definition get_environment (st : Store) (env_name : string) : Outcome :=
  with_environment st env_name (fun environment =>
    reply st (Respond 200
                (EnvironmentData
                   ("Details for environment: " +:+ Environment.name environment)
                   environment))).

(** [PUT /environments/:env_name]: [name] is read from the body and not
    used. *)
Definition put_environment (st : Store) (env_name : string) (b : Body) : Outcome :=
  with_environment st env_name (fun environment =>
    match Environment_update st environment (description b) with
    | (st', Return environment') =>
        reply st' (Respond 200
                     (EnvironmentData
                        ("Environment " +:+ Environment.name environment'
                         +:+ " fully updated (description only)")
                        environment'))
    | (st', Throw error) => catch validation_only st' error
    end).

(** [PATCH /environments/:env_name] *)
Definition patch_environment (st : Store) (env_name : string) (b : Body) : Outcome :=
  with_environment st env_name (fun environment =>
    match (if is_defined (description b)
           then Environment_update st environment (description b)
           else (st, Return environment)) with
    | (st', Return environment') =>
        reply st' (Respond 200
                     (EnvironmentData
                        ("Environment " +:+ Environment.name environment'
                         +:+ " partially updated")
                        environment'))
    | (st', Throw error) => catch validation_only st' error
    end).

(** [DELETE /environments/:env_name] *)
Definition delete_environment (st : Store) (env_name : string) : Outcome :=
  with_environment st env_name (fun environment =>
    reply (Environment_destroy st environment) (Respond 204 Empty)).

(** [is_sensitive !== undefined ? is_sensitive : false], when it is a
    boolean. *)
Definition sensitive_or_false (b : Body) : bool :=
  match is_sensitive b with Value s => s | _ => false end.

(** [POST /environments/:env_name/variables] *)
Definition post_variable (st : Store) (env_name : string) (b : Body) : Outcome :=
  with_environment st env_name (fun environment =>
    match Variable_create st (name b) (value b) (description b)
            (if is_defined (is_sensitive b) then is_sensitive b else Value false)
            (Environment.id environment) with
    | (st', Return newVariable) =>
        reply st' (Respond 201
                     (VariableData
                        ("Variable '" +:+ Variable_.name newVariable
                         +:+ "' created in " +:+ Environment.name environment)
                        newVariable))
    | (st', Throw error) => catch unique_or_validation st' error
    end).

(** [GET /environments/:env_name/variables/:var_name] *)
Definition get_variable (st : Store) (env_name var_name : string) : Outcome :=
  with_variable st env_name var_name (fun environment variable =>
    reply st (Respond 200
                (VariableData
                   ("Details for variable: " +:+ Variable_.name variable
                    +:+ " in " +:+ Environment.name environment)
                   variable))).

(** The object the PUT handler builds: each member of the body, or the
    current value of the attribute when the member is [undefined]. *)
Definition put_values (variable : Variable_.t) (b : Body) : VariableValues :=
  {| set_name :=
       if is_defined (name b) then name b else Value (Variable_.name variable);
     set_value :=
       if is_defined (value b) then value b else Value (Variable_.value variable);
     set_description :=
       if is_defined (description b) then description b
       else of_nullable (Variable_.description variable);
     set_is_sensitive :=
       if is_defined (is_sensitive b) then is_sensitive b
       else Value (Variable_.is_sensitive variable);
     set_environment_id := None |}.

(** [req.body] as the values of an update: every member that names an
    attribute. *)
Definition body_values (b : Body) : VariableValues :=
  {| set_name := name b;
     set_value := value b;
     set_description := description b;
     set_is_sensitive := is_sensitive b;
     set_environment_id := environment_id b |}.

(** [PUT /environments/:env_name/variables/:var_name] *)
Definition put_variable (st : Store) (env_name var_name : string) (b : Body)
  : Outcome :=
  with_variable st env_name var_name (fun environment variable =>
    match Variable_update st variable (put_values variable b) with
    | (st', Return variable') =>
        reply st' (Respond 200
                     (VariableData
                        ("Variable " +:+ Variable_.name variable' +:+ " in "
                         +:+ Environment.name environment +:+ " fully updated")
                        variable'))
    | (st', Throw error) => catch unique_or_validation st' error
    end).

(** [PATCH /environments/:env_name/variables/:var_name] *)
Definition patch_variable (st : Store) (env_name var_name : string) (b : Body)
  : Outcome :=
  with_variable st env_name var_name (fun environment variable =>
    match Variable_update st variable (body_values b) with
    | (st', Return updatedVariable) =>
        reply st' (Respond 200
                     (VariableData
                        ("Variable " +:+ Variable_.name updatedVariable +:+ " in "
                         +:+ Environment.name environment +:+ " partially updated")
                        updatedVariable))
    | (st', Throw error) => catch unique_or_validation st' error
    end).

(** [DELETE /environments/:env_name/variables/:var_name] *)
Definition delete_variable (st : Store) (env_name var_name : string) : Outcome :=
  with_variable st env_name var_name (fun environment variable =>
    reply (Variable_destroy st variable) (Respond 204 Empty)).

(** [GET /api-docs] *)
Definition get_api_docs (st : Store) : Outcome :=
  reply st (Respond 200 (Message "OpenAPI/Swagger schema documentation placeholder")).

(** The catch-all after the routes. *)
Definition not_found (st : Store) (req : Request) : Outcome :=
  reply st (Respond 404
              (Error "Not Found"
                 ("Cannot " +:+ method_name (method req) +:+ " " +:+ originalUrl req))).

(** *** The router

    Routes are tried in the order of their registration.  A literal
    segment matches whatever the case of its letters; a parameter matches
    a segment that is not empty.  In [/environments/:env_name.json] the
    parameter is what comes before the last [.json] of the segment. *)

Definition literal (segment text : string) : bool :=
  String.eqb (toLowerCase segment) text.

Definition parameter (segment : string) : bool :=
  negb (String.eqb segment "").

(** The parameter of [/environments/:env_name.json] on a segment, when
    the route matches. *)
Definition json_parameter (segment : string) : option string :=
  if (5 <? String.length segment)%nat && endsWith (toLowerCase segment) ".json"
  then Some (substring segment 0 (String.length segment - 5))
  else None.

Section Router.
Context (collate : string -> string -> bool).

Definition app (st : Store) (req : Request) : Outcome :=
  match method req, path req with
  | GET, [s] =>
      if literal s "status" then get_status st
      else if literal s "environments"
      then list_environments collate st (query_page req) (query_limit req)
      else if literal s "api-docs" then get_api_docs st
      else not_found st req
  | POST, [s] =>
      if literal s "environments" then post_environment st (body req)
      else not_found st req
  | m, [s; env_name] =>
      if literal s "environments" && parameter env_name then
        match m with
        | GET =>
            match json_parameter env_name with
            | Some env_name' => get_environment_json st env_name'
            | None => get_environment st env_name
            end
        | PUT => put_environment st env_name (body req)
        | PATCH => patch_environment st env_name (body req)
        | DELETE => delete_environment st env_name
        | POST => not_found st req
        end
      else not_found st req
  | m, [s; env_name; s'] =>
      if literal s "environments" && parameter env_name && literal s' "variables"
      then
        match m with
        | GET => list_variables collate st env_name (query_page req) (query_limit req)
        | POST => post_variable st env_name (body req)
        | _ => not_found st req
        end
      else not_found st req
  | m, [s; env_name; s'; var_name] =>
      if literal s "environments" && parameter env_name && literal s' "variables"
         && parameter var_name
      then
        match m with
        | GET => get_variable st env_name var_name
        | PUT => put_variable st env_name var_name (body req)
        | PATCH => patch_variable st env_name var_name (body req)
        | DELETE => delete_variable st env_name var_name
        | POST => not_found st req
        end
      else not_found st req
  | _, _ => not_found st req
  end.

(** The store after a sequence of requests. *)
Definition run (st : Store) (reqs : list Request) : Store :=
  fold_left (fun s req => db (app s req)) reqs st.
End Router.

(** *** A session

    Two environments are created, [prod] with the variables [A = 1] and
    [B = 2], and [dev] with the variable [A = 3]. *)
Definition session : list Request :=
  [request POST ["environments"] (name_only "prod");
   request POST ["environments"] (name_only "dev");
   request POST ["environments"; "prod"; "variables"] (name_value "A" "1");
   request POST ["environments"; "prod"; "variables"] (name_value "B" "2");
   request POST ["environments"; "dev"; "variables"] (name_value "A" "3")].

Definition session_store : Store := run String.leb Db.empty session.

(** Fifteen environments are created. *)
Definition fifteen : list Request :=
  map (fun n => request POST ["environments"] (name_only n))
      ["prod"; "dev"; "qa"; "stage"; "demo"; "test"; "ci"; "perf"; "lab"; "beta";
       "alpha"; "eu"; "us"; "asia"; "edge"].

Definition fifteen_store : Store := run String.leb Db.empty fifteen.

(** An environment is created under the name [a.json], and another
    under the name [a]. *)
Definition json_session : list Request :=
  [request POST ["environments"] (name_only "a.json");
   request POST ["environments"] (name_only "a")].

Definition json_store : Store := run String.leb Db.empty json_session.


(** The store after [session] and a request. *)
Definition session_then (req : Request) : Store :=
  db (app String.leb session_store req).

End Server.

(* ===================================================================== *)
(** ** The earlier server

    The earlier [api/server.js] defines the same models and creates an
    environment behind a guard on the name. *)
(* ===================================================================== *)

Module Earlier.
Import Js Db.

(** The objects of [res.json] in the create handler. *)
Inductive Payload : Type :=
| ErrorOnly (error : string)
| Created (message : string) (data : Environment.t).

(** The store, the response, and the errors given to [console.error]. *)
Record Outcome : Type := {
  db : Store;
  status : Z;
  payload : Payload;
  console : list JsError
}.

(** [!name]: [undefined], [null] and the empty string are falsy. *)
Definition falsy (name : Field string) : bool :=
  match name with
  | Value s => String.eqb s ""
  | _ => true
  end.

(** [POST /environments/] *)
Definition post_environment (st : Store) (name description : Field string) : Outcome :=
  if falsy name then
    {| db := st; status := 400; payload := ErrorOnly "Name is required"; console := [] |}
  else
    match Environment_create st name description with
    | (st', Return newEnv) =>
        {| db := st'; status := 201; payload := Created "Environment created" newEnv;
           console := [] |}
    | (st', Throw error) =>
        if String.eqb (Db.name error) "SequelizeUniqueConstraintError" then
          {| db := st'; status := 409;
             payload := ErrorOnly "Environment name already exists"; console := [] |}
        else
          {| db := st'; status := 500; payload := ErrorOnly "Internal server error";
             console := [error] |}
    end.
End Earlier.

(* ===================================================================== *)
(** ** Properties of the primitives *)
(* ===================================================================== *)

Section JsFacts.
Import Js.

Lemma length_map_chars f s : String.length (map_chars f s) = String.length s.
Proof. induction s as [|c s IH]; simpl; [reflexivity | now rewrite IH]. Qed.

Lemma substring_map_chars f s : forall n m,
  String.substring n m (map_chars f s) = map_chars f (String.substring n m s).
Proof.
  induction s as [|c s IH]; intros [|n] [|m]; simpl; try reflexivity.
  - now rewrite IH.
  - apply IH.
  - apply IH.
Qed.

Lemma map_chars_compose f g s :
  map_chars f (map_chars g s) = map_chars (fun c => f (g c)) s.
Proof. induction s as [|c s IH]; simpl; [reflexivity | now rewrite IH]. Qed.

Lemma map_chars_ext f g s :
  (forall c, f c = g c) -> map_chars f s = map_chars g s.
Proof. intros E. induction s as [|c s IH]; simpl; [reflexivity | now rewrite E, IH]. Qed.

Lemma lower_upper_char c : lower_char (upper_char c) = lower_char c.
Proof. destruct c as [[] [] [] [] [] [] [] []]; vm_compute; reflexivity. Qed.

Lemma upper_upper_char c : upper_char (upper_char c) = upper_char c.
Proof. destruct c as [[] [] [] [] [] [] [] []]; vm_compute; reflexivity. Qed.

Lemma upper_lower_char c : upper_char (lower_char c) = upper_char c.
Proof. destruct c as [[] [] [] [] [] [] [] []]; vm_compute; reflexivity. Qed.

Lemma toLowerCase_toUpperCase s : toLowerCase (toUpperCase s) = toLowerCase s.
Proof.
  unfold toLowerCase, toUpperCase. rewrite map_chars_compose.
  apply map_chars_ext, lower_upper_char.
Qed.

(** Upper-casing is idempotent: a stored name is its own normal form. *)
Lemma toUpperCase_idempotent s : toUpperCase (toUpperCase s) = toUpperCase s.
Proof.
  unfold toUpperCase. rewrite map_chars_compose.
  apply map_chars_ext, upper_upper_char.
Qed.

Lemma length_toUpperCase s : String.length (toUpperCase s) = String.length s.
Proof. apply length_map_chars. Qed.

Lemma length_toLowerCase s : String.length (toLowerCase s) = String.length s.
Proof. apply length_map_chars. Qed.

(** A suffix survives a character-wise mapping. *)
Lemma endsWith_map_chars f s suffix :
  endsWith s suffix = true ->
  endsWith (map_chars f s) (map_chars f suffix) = true.
Proof.
  unfold endsWith. rewrite !length_map_chars.
  intros H. apply andb_true_iff in H as [Hlen Heq].
  apply andb_true_iff. split; [exact Hlen|].
  apply String.eqb_eq in Heq. apply String.eqb_eq.
  rewrite substring_map_chars. now rewrite Heq.
Qed.

Lemma endsWith_length s suffix :
  endsWith s suffix = true -> (String.length suffix <= String.length s)%nat.
Proof.
  unfold endsWith. intros H. apply andb_true_iff in H as [Hlen _].
  now apply Nat.leb_le in Hlen.
Qed.

(** A name stored with the suffix [.JSON] is seen with the suffix [.json]
    by the middleware, however the request spells it. *)
Lemma endsWith_json_of_upper param :
  endsWith (toUpperCase param) ".JSON" = true ->
  endsWith (toLowerCase param) ".json" = true.
Proof.
  intros H. apply (endsWith_map_chars lower_char) in H.
  fold (toLowerCase (toUpperCase param)) in H.
  now rewrite toLowerCase_toUpperCase in H.
Qed.

Lemma length_substring_prefix s k :
  (k <= String.length s)%nat -> String.length (String.substring 0 k s) = k.
Proof.
  revert k. induction s as [|c s IH]; intros [|k] Hk; simpl in *; try reflexivity.
  - lia.
  - rewrite IH; [reflexivity | lia].
Qed.

(** *** [parseInt] *)

Lemma digit_in_10 c : is_digit c = false -> digit_in 10 c = None.
Proof. destruct c as [[] [] [] [] [] [] [] []]; vm_compute; congruence. Qed.

Lemma read_unsigned_no_digit s :
  Forall (fun c => is_digit c = false) (chars s) -> read_unsigned s = None.
Proof.
  intros H. destruct s as [|c s]; [reflexivity|].
  simpl in H. apply Forall_cons in H as [Hc Hs].
  assert (Hd : read_digits 10 None (String c s) = None)
    by (simpl; now rewrite digit_in_10).
  unfold read_unsigned.
  destruct c as [[] [] [] [] [] [] [] []]; try exact Hd; vm_compute in Hc; congruence.
Qed.

Lemma skip_spaces_chars s :
  Forall (fun c => is_digit c = false) (chars s) ->
  Forall (fun c => is_digit c = false) (chars (skip_spaces s)).
Proof.
  induction s as [|c s IH]; simpl; intros H; [constructor|].
  apply Forall_cons in H as [Hc Hs].
  destruct (is_space c); [now apply IH | simpl; now constructor].
Qed.

(** A text with no decimal digit in it is not a number. *)
Lemma parseInt_no_digit s :
  Forall (fun c => is_digit c = false) (chars s) -> parseInt (Some s) = None.
Proof.
  intros H. apply skip_spaces_chars in H. simpl. unfold parseInt_string.
  destruct (skip_spaces s) as [|c s'] eqn:E; [reflexivity|].
  pose proof (read_unsigned_no_digit _ H) as Hu.
  simpl in H. apply Forall_cons in H as [Hc Hs].
  pose proof (read_unsigned_no_digit _ Hs) as Hu'.
  destruct c as [[] [] [] [] [] [] [] []]; try exact Hu; rewrite Hu'; reflexivity.
Qed.

Lemma parseInt_undefined : parseInt None = None.
Proof. reflexivity. Qed.

End JsFacts.

(* ===================================================================== *)
(** ** The constraints are kept by every ORM call *)
(* ===================================================================== *)

Section Rows.
Context {A K : Type} (f : A -> K).

Lemma NoDup_map_filter (p : A -> bool) (l : list A) :
  List.NoDup (map f l) -> List.NoDup (map f (List.filter p l)).
Proof.
  induction l as [|x l IH]; simpl; intros H; [constructor|].
  apply NoDup_cons_iff in H as [Hx Hl].
  destruct (p x); simpl; [|now apply IH].
  apply NoDup_cons_iff. split; [|now apply IH].
  intros Hin. apply Hx. apply in_map_iff in Hin as (y & Hy & Hin).
  apply filter_In in Hin as [Hin _]. apply in_map_iff. eauto.
Qed.

Lemma NoDup_map_snoc (l : list A) (y : A) :
  List.NoDup (map f l) -> (forall x, In x l -> f x <> f y) ->
  List.NoDup (map f (l ++ [y])).
Proof.
  induction l as [|x l IH]; simpl; intros H Hy.
  - repeat constructor. intros [].
  - apply NoDup_cons_iff in H as [Hx Hl].
    apply NoDup_cons_iff. split; [|apply IH; auto].
    rewrite map_app, in_app_iff. simpl. intros [Hin|[Heq|[]]]; [auto|].
    apply (Hy x); auto.
Qed.

(** Two rows of a table with the same key are the same row. *)
Lemma NoDup_map_inj (l : list A) (x y : A) :
  List.NoDup (map f l) -> In x l -> In y l -> f x = f y -> x = y.
Proof.
  induction l as [|z l IH]; simpl; intros H Hx Hy E; [contradiction|].
  apply NoDup_cons_iff in H as [Hz Hl].
  destruct Hx as [->|Hx], Hy as [->|Hy]; auto.
  - exfalso. apply Hz. rewrite E. now apply in_map.
  - exfalso. apply Hz. rewrite <- E. now apply in_map.
Qed.
End Rows.

Section Replace.
Import Db.
Context {A K : Type} (id : A -> Z) (g : A -> K).

Lemma replace_row_absent i row' l :
  (forall r, In r l -> id r <> i) -> replace_row id i row' l = l.
Proof.
  induction l as [|x l IH]; simpl; intros H; [reflexivity|].
  destruct (Z.eqb_spec (id x) i) as [E|_]; [exfalso; apply (H x); auto|].
  f_equal. apply IH. intros r Hr. apply H. now right.
Qed.

Lemma in_replace_row i row' l r :
  In r (replace_row id i row' l) -> r = row' \/ (In r l /\ id r <> i).
Proof.
  unfold replace_row. intros H. apply in_map_iff in H as (x & Hx & Hin).
  destruct (Z.eqb_spec (id x) i); subst; auto.
Qed.

Lemma map_id_replace_row i row' l :
  id row' = i -> map id (replace_row id i row' l) = map id l.
Proof.
  intros E. induction l as [|x l IH]; simpl; [reflexivity|].
  rewrite IH. f_equal. destruct (Z.eqb_spec (id x) i); congruence.
Qed.

Lemma NoDup_replace_row i row' l :
  List.NoDup (map id l) -> List.NoDup (map g l) ->
  (forall r, In r l -> id r <> i -> g r <> g row') ->
  List.NoDup (map g (replace_row id i row' l)).
Proof.
  induction l as [|x l IH]; simpl; intros Hid Hg Hother; [constructor|].
  apply NoDup_cons_iff in Hid as [Hxid Hlid].
  apply NoDup_cons_iff in Hg as [Hxg Hlg].
  destruct (Z.eqb_spec (id x) i) as [E|E].
  - assert (Habs : forall r, In r l -> id r <> i).
    { intros r Hr Er. apply Hxid. rewrite E, <- Er. now apply in_map. }
    fold (replace_row id i row' l). rewrite replace_row_absent by exact Habs.
    apply NoDup_cons_iff. split; [|exact Hlg].
    intros Hin. apply in_map_iff in Hin as (r & Hr & Hin).
    apply (Hother r); auto.
  - apply NoDup_cons_iff. split; [|apply IH; auto].
    intros Hin. apply in_map_iff in Hin as (r & Hr & Hin).
    apply in_replace_row in Hin as [->|[Hin Hne]].
    + apply (Hother x); auto.
    + apply Hxg. rewrite <- Hr. now apply in_map.
Qed.
End Replace.

Section Constraints.
Import Js Db.

Lemma store_ok_empty : store_ok Db.empty.
Proof. split; simpl; try constructor; intros ? []. Qed.

Lemma environment_exists_iff st i :
  environment_exists st i = true <->
  exists e, In e (environments st) /\ Environment.id e = i.
Proof.
  unfold environment_exists. rewrite existsb_exists.
  split; intros (e & He & E); exists e; split; auto; now apply Z.eqb_eq.
Qed.

Lemma key_eqb_eq k1 k2 : key_eqb k1 k2 = true <-> k1 = k2.
Proof.
  destruct k1 as [i1 n1], k2 as [i2 n2]. unfold key_eqb. simpl.
  rewrite andb_true_iff, Z.eqb_eq, String.eqb_eq. split; [intros [-> ->]|intros [= -> ->]]; auto.
Qed.

Lemma Environment_findOne_some st n e :
  Environment_findOne st n = Some e ->
  In e (environments st) /\ Environment.name e = n.
Proof.
  unfold Environment_findOne. intros H. apply find_some in H as [Hin E].
  split; [exact Hin | now apply String.eqb_eq].
Qed.

Lemma Variable_findOne_some st i n v :
  Variable_findOne st i n = Some v ->
  In v (variables st) /\ Variable_.environment_id v = i /\ Variable_.name v = n.
Proof.
  unfold Variable_findOne. intros H. apply find_some in H as [Hin E].
  apply andb_true_iff in E as [E1 E2].
  repeat split; [exact Hin | now apply Z.eqb_eq | now apply String.eqb_eq].
Qed.

Lemma Variable_findOne_none st i n :
  Variable_findOne st i n = None ->
  forall v, In v (variables st) -> Variable_.key v <> (i, n).
Proof.
  unfold Variable_findOne. intros H v Hin E.
  pose proof (find_none _ _ H v Hin) as Hv. simpl in Hv.
  unfold Variable_.key in E. injection E as E1 E2.
  rewrite E1, E2, Z.eqb_refl, String.eqb_refl in Hv. discriminate.
Qed.

(** [Environment.create] *)
Lemma Environment_create_ok st n d :
  store_ok st -> store_ok (fst (Environment_create st n d)).
Proof.
  intros Hok. unfold Environment_create.
  destruct (Environment_set_name n) as [n'|err]; [|exact Hok].
  destruct (too_long n'); [exact Hok|].
  destruct (existsb _ _) eqn:Hex; [exact Hok|].
  destruct Hok as [H1 H2 H3 H4 H5 H6 H7]. split; simpl; auto.
  - apply NoDup_map_snoc; [exact H1|]. intros e He. simpl.
    specialize (H3 e He). lia.
  - apply NoDup_map_snoc; [exact H2|]. intros e He E. simpl in E.
    assert (existsb (fun e => String.eqb (Environment.name e) n') (environments st) = true)
      as Habs by (apply existsb_exists; exists e; split; [exact He | now apply String.eqb_eq]).
    congruence.
  - intros e He. apply in_app_iff in He as [He|[<-|[]]]; simpl.
    + specialize (H3 e He). lia.
    + lia.
  - intros v Hv. specialize (H7 v Hv).
    apply environment_exists_iff in H7 as (e & He & E).
    apply environment_exists_iff. exists e. split; [|exact E].
    simpl. apply in_app_iff. now left.
Qed.

(** [environment.update] on a row of the table *)
Lemma Environment_update_ok st e d :
  store_ok st -> In e (environments st) ->
  store_ok (fst (Environment_update st e d)).
Proof.
  intros Hok He. unfold Environment_update.
  destruct d as [| |d]; [exact Hok| |];
    destruct Hok as [H1 H2 H3 H4 H5 H6 H7]; split; simpl; auto.
  all: try (rewrite map_id_replace_row; [exact H1 | reflexivity]).
  all: try (apply NoDup_replace_row; [exact H1 | exact H2 |];
            intros r Hr Hne E; simpl in E; apply Hne; f_equal;
            now apply (NoDup_map_inj Environment.name (environments st))).
  all: try (intros r Hr; apply in_replace_row in Hr as [->|[Hr _]]; simpl; auto).
  all: intros v Hv; specialize (H7 v Hv);
    apply environment_exists_iff in H7 as (r & Hr & E);
    apply environment_exists_iff;
    destruct (Z.eq_dec (Environment.id r) (Environment.id e)) as [Er|Er].
  all: try (eexists; split;
            [apply in_map_iff; exists r; split; [|exact Hr];
             rewrite (proj2 (Z.eqb_eq _ _) Er); reflexivity
            |simpl; congruence]).
  all: exists r; split; [|exact E];
    apply in_map_iff; exists r; split; [|exact Hr];
    destruct (Z.eqb_spec (Environment.id r) (Environment.id e)); [contradiction|reflexivity].
Qed.

(** [environment.destroy]: the cascade keeps the foreign key. *)
Lemma Environment_destroy_ok st e :
  store_ok st -> store_ok (Environment_destroy st e).
Proof.
  intros [H1 H2 H3 H4 H5 H6 H7]. split; simpl.
  - now apply NoDup_map_filter.
  - now apply NoDup_map_filter.
  - intros r Hr. apply filter_In in Hr as [Hr _]. auto.
  - now apply NoDup_map_filter.
  - now apply NoDup_map_filter.
  - intros v Hv. apply filter_In in Hv as [Hv _]. auto.
  - intros v Hv. apply filter_In in Hv as [Hv Hne].
    specialize (H7 v Hv). apply environment_exists_iff in H7 as (r & Hr & E).
    apply environment_exists_iff. exists r. split; [|exact E].
    simpl. apply filter_In. split; [exact Hr|]. now rewrite E.
Qed.

(** [Variable.create] *)
Lemma Variable_create_ok st n x d b i :
  store_ok st -> store_ok (fst (Variable_create st n x d b i)).
Proof.
  intros Hok. unfold Variable_create.
  destruct n as [| |n]; try exact Hok.
  destruct x as [| |x]; try exact Hok.
  destruct b as [| |b]; try exact Hok.
  destruct (too_long n); [exact Hok|].
  destruct (existsb _ _) eqn:Hex; [exact Hok|].
  destruct (environment_exists st i) eqn:Hfk; [|exact Hok].
  destruct Hok as [H1 H2 H3 H4 H5 H6 H7]. split; simpl; auto.
  - apply NoDup_map_snoc; [exact H4|]. intros v Hv. simpl.
    specialize (H6 v Hv). lia.
  - apply NoDup_map_snoc; [exact H5|]. intros v Hv E.
    assert (existsb
              (fun r => key_eqb (Variable_.key r)
                          (Variable_.key
                             (Variable_.mk (variables_id_seq st) n x (to_nullable d) b i)))
              (variables st) = true) as Habs
      by (apply existsb_exists; exists v; split; [exact Hv | now apply key_eqb_eq]).
    congruence.
  - intros v Hv. apply in_app_iff in Hv as [Hv|[<-|[]]]; simpl.
    + specialize (H6 v Hv). lia.
    + lia.
  - intros v Hv. apply in_app_iff in Hv as [Hv|[<-|[]]].
    + apply (H7 v Hv).
    + exact Hfk.
Qed.

Lemma existsb_false {A} (p : A -> bool) (l : list A) x :
  existsb p l = false -> In x l -> p x = false.
Proof.
  intros H Hin. destruct (p x) eqn:E; [|reflexivity].
  assert (existsb p l = true) by (apply existsb_exists; eauto). congruence.
Qed.

(** [variable.update] on a row of the table *)
Lemma Variable_update_ok st v values :
  store_ok st -> In v (variables st) ->
  store_ok (fst (Variable_update st v values)).
Proof.
  intros Hok Hv. unfold Variable_update.
  destruct (_ ++ _)%list; [|exact Hok].
  set (v' := updated_row v values).
  destruct (decide (v' = v)); [exact Hok|].
  destruct (_ && too_long _); [exact Hok|].
  destruct (negb (key_eqb _ _) && _) eqn:Huniq; [exact Hok|].
  destruct (negb (_ =? _) && _) eqn:Hfk; [exact Hok|].
  destruct Hok as [H1 H2 H3 H4 H5 H6 H7]. split; simpl; auto.
  - rewrite map_id_replace_row; [exact H4 | reflexivity].
  - apply NoDup_replace_row; [exact H4 | exact H5 |].
    intros r Hr Hne E.
    apply andb_false_iff in Huniq as [Hsame|Hnone].
    + apply negb_false_iff, key_eqb_eq in Hsame. apply Hne. f_equal.
      apply (NoDup_map_inj Variable_.key (variables st)); auto. congruence.
    + pose proof (existsb_false _ _ r Hnone Hr) as Hr'. simpl in Hr'.
      apply andb_false_iff in Hr' as [Hr'|Hr'].
      * apply negb_false_iff, Z.eqb_eq in Hr'. contradiction.
      * rewrite (proj2 (key_eqb_eq _ _) E) in Hr'. discriminate.
  - intros r Hr. apply in_replace_row in Hr as [->|[Hr _]]; simpl; auto.
  - intros r Hr. apply in_replace_row in Hr as [->|[Hr _]]; [|apply (H7 r Hr)].
    apply andb_false_iff in Hfk as [Hsame|Hex].
    + apply negb_false_iff, Z.eqb_eq in Hsame. rewrite Hsame. apply (H7 v Hv).
    + now apply negb_false_iff in Hex.
Qed.

(** [variable.destroy] *)
Lemma Variable_destroy_ok st v :
  store_ok st -> store_ok (Variable_destroy st v).
Proof.
  intros [H1 H2 H3 H4 H5 H6 H7]. split; simpl; auto.
  - now apply NoDup_map_filter.
  - now apply NoDup_map_filter.
  - intros r Hr. apply filter_In in Hr as [Hr _]. auto.
  - intros r Hr. apply filter_In in Hr as [Hr _]. apply (H7 r Hr).
Qed.
End Constraints.

(* ===================================================================== *)
(** ** Properties of the middlewares and the handlers *)
(* ===================================================================== *)

Section Middlewares.
Import Js Db Server.

Lemma findEnvironment_inr st param e :
  findEnvironment st param = inr e ->
  In e (environments st) /\ Environment.name e = lookup_name param.
Proof.
  unfold findEnvironment. fold (lookup_name param).
  destruct (Environment_findOne st (lookup_name param)) as [e'|] eqn:E; [|discriminate].
  intros [= <-]. now apply Environment_findOne_some.
Qed.

Lemma findEnvironment_inl st param r :
  findEnvironment st param = inl r ->
  Environment_findOne st (lookup_name param) = None /\
  r = Respond 404
        (Error "Not Found" ("Environment '" +:+ lookup_name param +:+ "' not found.")).
Proof.
  unfold findEnvironment. fold (lookup_name param).
  destruct (Environment_findOne st (lookup_name param)); [discriminate|].
  intros [= <-]. auto.
Qed.

Lemma findVariable_inr st e var_name v :
  findVariable st e var_name = inr v ->
  In v (variables st) /\ Variable_.environment_id v = Environment.id e
  /\ Variable_.name v = var_name.
Proof.
  unfold findVariable.
  destruct (Variable_findOne st (Environment.id e) var_name) eqn:E; [|discriminate].
  intros [= <-]. now apply Variable_findOne_some.
Qed.

Lemma db_catch names st error : db (catch names st error) = st.
Proof.
  unfold catch. destruct (existsb _ _); [|reflexivity].
  destruct (Db.errors error); reflexivity.
Qed.

(** The response of [catch] is 400, 500 or none. *)
Lemma response_catch names st error :
  status_of (response (catch names st error)) <> Some 200 /\
  status_of (response (catch names st error)) <> Some 201.
Proof.
  unfold catch. destruct (existsb _ _); [destruct (Db.errors error)|]; simpl;
    split; congruence.
Qed.

Lemma with_environment_ok st env_name k :
  store_ok st ->
  (forall e, In e (environments st) -> store_ok (db (k e))) ->
  store_ok (db (with_environment st env_name k)).
Proof.
  intros Hok Hk. unfold with_environment.
  destruct (findEnvironment st env_name) as [r|e] eqn:E; [exact Hok|].
  apply Hk. now apply findEnvironment_inr in E.
Qed.

Lemma with_variable_ok st env_name var_name k :
  store_ok st ->
  (forall e v, In e (environments st) -> In v (variables st) -> store_ok (db (k e v))) ->
  store_ok (db (with_variable st env_name var_name k)).
Proof.
  intros Hok Hk. unfold with_variable. apply with_environment_ok; [exact Hok|].
  intros e He. destruct (findVariable st e var_name) as [r|v] eqn:E; [exact Hok|].
  apply Hk; [exact He|]. now apply findVariable_inr in E.
Qed.
End Middlewares.

Section Handlers.
Import Js Db Server.
Context (collate : string -> string -> bool).

Lemma post_environment_ok st b : store_ok st -> store_ok (db (post_environment st b)).
Proof.
  intros Hok. unfold post_environment.
  pose proof (Environment_create_ok st (name b) (description b) Hok) as H.
  destruct (Environment_create st (name b) (description b)) as [st' [e|err]];
    [exact H | now rewrite db_catch].
Qed.

Lemma put_environment_ok st p b : store_ok st -> store_ok (db (put_environment st p b)).
Proof.
  intros Hok. apply with_environment_ok; [exact Hok|]. intros e He.
  pose proof (Environment_update_ok st e (description b) Hok He) as H.
  destruct (Environment_update st e (description b)) as [st' [e'|err]];
    [exact H | now rewrite db_catch].
Qed.

Lemma patch_environment_ok st p b :
  store_ok st -> store_ok (db (patch_environment st p b)).
Proof.
  intros Hok. apply with_environment_ok; [exact Hok|]. intros e He.
  destruct (is_defined (description b)); [|exact Hok].
  pose proof (Environment_update_ok st e (description b) Hok He) as H.
  destruct (Environment_update st e (description b)) as [st' [e'|err]];
    [exact H | now rewrite db_catch].
Qed.

Lemma delete_environment_ok st p :
  store_ok st -> store_ok (db (delete_environment st p)).
Proof.
  intros Hok. apply with_environment_ok; [exact Hok|]. intros e He.
  now apply Environment_destroy_ok.
Qed.

Lemma get_environment_json_ok st p :
  store_ok st -> store_ok (db (get_environment_json st p)).
Proof.
  intros Hok. apply with_environment_ok; [exact Hok|]. intros e He.
  destruct (Environment_findByPk st (Environment.id e)) as [[e' vs]|]; exact Hok.
Qed.

Lemma get_environment_ok st p : store_ok st -> store_ok (db (get_environment st p)).
Proof. intros Hok. apply with_environment_ok; auto. Qed.

Lemma list_environments_ok st qp ql :
  store_ok st -> store_ok (db (list_environments collate st qp ql)).
Proof.
  intros Hok. unfold list_environments.
  destruct (Environment_findAndCountAll _ _ _ _) as [[c l]|err]; exact Hok.
Qed.

Lemma list_variables_ok st p qp ql :
  store_ok st -> store_ok (db (list_variables collate st p qp ql)).
Proof.
  intros Hok. apply with_environment_ok; [exact Hok|]. intros e He. cbv beta zeta.
  destruct (Variable_findAndCountAll _ _ _ _ _) as [[c l]|err]; exact Hok.
Qed.

Lemma post_variable_ok st p b : store_ok st -> store_ok (db (post_variable st p b)).
Proof.
  intros Hok. apply with_environment_ok; [exact Hok|]. intros e He.
  match goal with |- context [Variable_create ?s ?n ?x ?d ?i ?k] =>
    pose proof (Variable_create_ok s n x d i k Hok) as H;
    destruct (Variable_create s n x d i k) as [st' [v|err]] end;
    [exact H | now rewrite db_catch].
Qed.

Lemma get_variable_ok st p vn : store_ok st -> store_ok (db (get_variable st p vn)).
Proof. intros Hok. apply with_variable_ok; auto. Qed.

Lemma put_variable_ok st p vn b :
  store_ok st -> store_ok (db (put_variable st p vn b)).
Proof.
  intros Hok. apply with_variable_ok; [exact Hok|]. intros e v He Hv.
  pose proof (Variable_update_ok st v (put_values v b) Hok Hv) as H.
  destruct (Variable_update st v (put_values v b)) as [st' [v'|err]];
    [exact H | now rewrite db_catch].
Qed.

Lemma patch_variable_ok st p vn b :
  store_ok st -> store_ok (db (patch_variable st p vn b)).
Proof.
  intros Hok. apply with_variable_ok; [exact Hok|]. intros e v He Hv.
  pose proof (Variable_update_ok st v (body_values b) Hok Hv) as H.
  destruct (Variable_update st v (body_values b)) as [st' [v'|err]];
    [exact H | now rewrite db_catch].
Qed.

Lemma delete_variable_ok st p vn :
  store_ok st -> store_ok (db (delete_variable st p vn)).
Proof.
  intros Hok. apply with_variable_ok; [exact Hok|]. intros e v He Hv.
  now apply Variable_destroy_ok.
Qed.

(** Every request leaves a store that satisfies the constraints. *)
Lemma app_store_ok st req : store_ok st -> store_ok (db (app collate st req)).
Proof.
  intros Hok. unfold app.
  repeat case_match; simpl;
    auto using post_environment_ok, put_environment_ok, patch_environment_ok,
      delete_environment_ok, get_environment_json_ok, get_environment_ok,
      list_environments_ok, list_variables_ok, post_variable_ok, get_variable_ok,
      put_variable_ok, patch_variable_ok, delete_variable_ok.
Qed.

Lemma run_store_ok reqs : forall st, store_ok st -> store_ok (run collate st reqs).
Proof.
  induction reqs as [|req reqs IH]; intros st Hok; simpl; [exact Hok|].
  apply IH. now apply app_store_ok.
Qed.
End Handlers.

(* ===================================================================== *)
(** ** The flattened configuration *)
(* ===================================================================== *)

Section Flattening.
Import Js Db Server.

Lemma set_property_lookup acc k x k' :
  set_property acc k x !! k' =
  if decide (k = k' /\ k <> "__proto__") then Some x else acc !! k'.
Proof.
  unfold set_property. destruct (String.eqb_spec k "__proto__") as [->|Hk].
  - destruct (decide _) as [[_ H]|_]; [contradiction|reflexivity].
  - rewrite lookup_insert. destruct (decide (k = k')) as [->|Hne].
    + destruct (decide _) as [_|H]; [reflexivity | exfalso; apply H; auto].
    + destruct (decide _) as [[H _]|_]; [contradiction|reflexivity].
Qed.

Lemma flatten_from_absent variables : forall acc k,
  (forall v, In v variables -> Variable_.name v <> k) ->
  flatten_from acc variables !! k = acc !! k.
Proof.
  induction variables as [|v vs IH]; intros acc k Hk; simpl; [reflexivity|].
  rewrite IH by (intros v' Hv'; apply Hk; now right).
  rewrite set_property_lookup. destruct (decide _) as [[E _]|_]; [|reflexivity].
  exfalso. apply (Hk v); auto. now left.
Qed.

(** No variable becomes the property [__proto__]. *)
Lemma flatten_from_proto variables : forall acc,
  flatten_from acc variables !! "__proto__" = acc !! "__proto__".
Proof.
  induction variables as [|v vs IH]; intros acc; simpl; [reflexivity|].
  rewrite IH, set_property_lookup.
  destruct (decide _) as [[E H]|_]; [congruence|reflexivity].
Qed.

Lemma flatten_from_lookup variables : forall acc v,
  List.NoDup (map Variable_.name variables) -> In v variables ->
  Variable_.name v <> "__proto__" ->
  flatten_from acc variables !! Variable_.name v = Some (Variable_.value v).
Proof.
  induction variables as [|w vs IH]; intros acc v Hnd Hin Hv; [destruct Hin|].
  apply NoDup_cons_iff in Hnd as [Hw Hvs]. destruct Hin as [->|Hin]; simpl.
  - rewrite flatten_from_absent.
    + rewrite set_property_lookup. destruct (decide _) as [_|H]; [reflexivity|].
      exfalso. apply H. auto.
    + intros v' Hv' E. apply Hw. rewrite <- E. now apply in_map.
  - now apply IH.
Qed.

(** Away from [__proto__], and for variables with distinct names, the
    flattened object has the names as its keys and the values at them. *)
Lemma flatten_lookup variables v :
  List.NoDup (map Variable_.name variables) -> In v variables ->
  Variable_.name v <> "__proto__" ->
  flatten variables !! Variable_.name v = Some (Variable_.value v).
Proof. apply flatten_from_lookup. Qed.

Lemma flatten_keys variables k :
  is_Some (flatten variables !! k) <->
  k <> "__proto__" /\ exists v, In v variables /\ Variable_.name v = k.
Proof.
  unfold flatten.
  assert (G : forall acc,
    is_Some (flatten_from acc variables !! k) <->
    is_Some (acc !! k) \/
    (k <> "__proto__" /\ exists v, In v variables /\ Variable_.name v = k)).
  { induction variables as [|w vs IH]; intros acc; simpl.
    - split; [auto|]. intros [H|(_ & v & [] & _)]; exact H.
    - rewrite IH, set_property_lookup. destruct (decide _) as [[E Hp]|Hn].
      + split; [|intros _; left; eauto].
        intros _. right. subst k. split; [exact Hp|]. exists w. auto.
      + split.
        * intros [H|(Hk & v & Hv & E)]; [now left|]. right. split; [exact Hk|].
          exists v. auto.
        * intros [H|(Hk & v & [->|Hv] & E)]; [now left| |].
          -- exfalso. apply Hn. subst k. auto.
          -- right. split; [exact Hk|]. exists v. auto. }
  rewrite G, lookup_empty. split.
  - intros [[x Hx]|H]; [discriminate|exact H].
  - auto.
Qed.

(** The example of the specification: [A = 1] and [B = 2]. *)
Lemma flatten_A_B i1 i2 d1 d2 s1 s2 e :
  flatten [Variable_.mk i1 "A" "1" d1 s1 e; Variable_.mk i2 "B" "2" d2 s2 e]
  = {[ "A" := "1"; "B" := "2" ]}.
Proof.
  apply map_eq. intros k. unfold flatten, flatten_from. simpl.
  rewrite !set_property_lookup. simpl.
  destruct (decide ("B" = k /\ _)) as [[<- _]|HB].
  - rewrite lookup_insert_ne by discriminate. now rewrite lookup_singleton_eq.
  - destruct (decide ("A" = k /\ _)) as [[<- _]|HA].
    + now rewrite lookup_insert_eq.
    + rewrite lookup_empty. symmetry.
      rewrite lookup_insert_ne by (intros <-; apply HA; split; [reflexivity|discriminate]).
      rewrite lookup_singleton_ne by (intros <-; apply HB; split; [reflexivity|discriminate]).
      reflexivity.
Qed.

Lemma NoDup_names_of_environment st i :
  store_ok st ->
  List.NoDup (map Variable_.name
                (List.filter (fun v => Variable_.environment_id v =? i) (variables st))).
Proof.
  intros Hok. pose proof (variables_environment_id_name st Hok) as H.
  induction (variables st) as [|v vs IH]; simpl; [constructor|].
  simpl in H. apply NoDup_cons_iff in H as [Hv Hvs].
  destruct (Z.eqb_spec (Variable_.environment_id v) i) as [E|E]; [|now apply IH].
  simpl. apply NoDup_cons_iff. split; [|now apply IH].
  intros Hin. apply in_map_iff in Hin as (w & Hw & Hin).
  apply filter_In in Hin as [Hin Ew]. apply Z.eqb_eq in Ew.
  apply Hv. apply in_map_iff. exists w. split; [|exact Hin].
  unfold Variable_.key. congruence.
Qed.

(** On a store that satisfies the constraints, the endpoint answers 200
    with an object whose keys are the names of the environment's
    variables other than [__proto__], each with the variable's value. *)
Lemma get_environment_json_spec st param e :
  store_ok st -> findEnvironment st param = inr e ->
  exists flatConfig,
    response (get_environment_json st param) = Respond 200 (FlatConfig flatConfig)
    /\ (forall k, is_Some (flatConfig !! k) <->
                  k <> "__proto__" /\
                  exists v, In v (variables st)
                            /\ Variable_.environment_id v = Environment.id e
                            /\ Variable_.name v = k)
    /\ (forall v, In v (variables st) ->
                  Variable_.environment_id v = Environment.id e ->
                  Variable_.name v <> "__proto__" ->
                  flatConfig !! Variable_.name v = Some (Variable_.value v)).
Proof.
  intros Hok Hfind. unfold get_environment_json, with_environment. rewrite Hfind.
  apply findEnvironment_inr in Hfind as [He _].
  unfold Environment_findByPk.
  destruct (List.find _ (environments st)) as [e'|] eqn:Hpk.
  - eexists. split; [reflexivity|]. split.
    + intros k. rewrite flatten_keys. split.
      * intros (Hk & v & Hv & E). apply filter_In in Hv as [Hv Ev].
        apply Z.eqb_eq in Ev. eauto 6.
      * intros (Hk & v & Hv & Ev & E). split; [exact Hk|]. exists v.
        split; [|exact E]. apply filter_In. split; [exact Hv | now apply Z.eqb_eq].
    + intros v Hv Ev Hp. apply flatten_lookup; [now apply NoDup_names_of_environment| |exact Hp].
      apply filter_In. split; [exact Hv | now apply Z.eqb_eq].
  - exfalso. pose proof (find_none _ _ Hpk e He) as H. simpl in H.
    now rewrite Z.eqb_refl in H.
Qed.

(** C1.  [GET /environments/:env_name.json] is meant to return an object
    with one key per variable of the environment.  After an environment
    [E] has been created and given the variable [__proto__ = 1], the store
    holds that variable under [E], and the endpoint answers 200 with the
    object [{}]: the assignment [acc["__proto__"] = "1"] on the object
    literal creates no property, so the variable's name is not a key. *)
Theorem flat_config_drops_proto collate :
  let st := run collate Db.empty
              [request POST ["environments"] (name_only "E");
               request POST ["environments"; "E"; "variables"]
                       (name_value "__proto__" "1")] in
  variables st = [Variable_.mk 1 "__proto__" "1" None false 1]
  /\ environments st = [Environment.mk 1 "E" None]
  /\ response (app collate st (request GET ["environments"; "E.json"] no_body))
     = Respond 200 (FlatConfig ∅).
Proof. vm_compute. repeat split; reflexivity. Qed.
End Flattening.

(* ===================================================================== *)
(** ** Creating environments *)
(* ===================================================================== *)

Section CreateEnvironment.
Import Js Db Server.


Lemma post_environment_created st b message e :
  response (post_environment st b) = Respond 201 (EnvironmentData message e) ->
  exists n,
    name b = Value n
    /\ too_long (toUpperCase n) = false
    /\ Environment_findOne st (toUpperCase n) = None
    /\ e = Environment.mk (environments_id_seq st) (toUpperCase n)
                          (to_nullable (description b))
    /\ environments (db (post_environment st b)) = (environments st ++ [e])%list
    /\ variables (db (post_environment st b)) = variables st.
Proof.
  unfold post_environment, Environment_create.
  destruct (name b) as [| |n]; simpl;
    try (intros H; exfalso; vm_compute in H; discriminate).
  destruct (too_long (toUpperCase n)) eqn:Hlen;
    [intros H; exfalso; vm_compute in H; discriminate|].
  destruct (existsb _ _) eqn:Hex; [intros H; exfalso; vm_compute in H; discriminate|].
  simpl. intros [= _ <-]. exists n. repeat split; auto.
  unfold Environment_findOne.
  destruct (List.find _ _) as [x|] eqn:Hf; [|reflexivity].
  apply find_some in Hf as [Hin Hx].
  assert (existsb (fun e => String.eqb (Environment.name e) (toUpperCase n))
                  (environments st) = true) by (apply existsb_exists; eauto).
  congruence.
Qed.


(** C3.  A create call with the name missing ([undefined]) or [null] is
    meant to fail with a validation error (400).  On every store, the
    request [POST /environments/] with such a body is answered 500 by the
    global error handler, with the text of the [TypeError] that the
    setter of [name] throws, and the store is unchanged. *)
Theorem post_environment_without_name collate st d x s i :
  let missing := {| name := Undefined; value := x; description := d;
                    is_sensitive := s; environment_id := i |} in
  let null := {| name := Null; value := x; description := d;
                 is_sensitive := s; environment_id := i |} in
  response (app collate st (request POST ["environments"] missing))
  = Respond 500
      (InternalError "Internal Server Error"
         "An unexpected error occurred on the server side."
         "Cannot read properties of undefined (reading 'toUpperCase')")
  /\ response (app collate st (request POST ["environments"] null))
     = Respond 500
         (InternalError "Internal Server Error"
            "An unexpected error occurred on the server side."
            "Cannot read properties of null (reading 'toUpperCase')")
  /\ db (app collate st (request POST ["environments"] missing)) = st
  /\ db (app collate st (request POST ["environments"] null)) = st.
Proof. repeat split; reflexivity. Qed.
End CreateEnvironment.

(* ===================================================================== *)
(** ** The global error handler *)
(* ===================================================================== *)

Section ErrorHandler.
Import Js Db Server.

(** C6, as stated: the body of a 500 response is generic and holds no raw
    internal error text.  It does: the request [POST /environments/] with
    the body [{}] on the empty store is answered 500 with the text of the
    [TypeError] in [details]; and the body is not the same for every
    exception, since two exceptions with different messages get different
    bodies. *)
Lemma error_handler_not_generic :
  response (app String.leb Db.empty (request POST ["environments"] no_body))
  = Respond 500
      (InternalError "Internal Server Error"
         "An unexpected error occurred on the server side."
         "Cannot read properties of undefined (reading 'toUpperCase')")
  /\ ~ (forall st err1 err2,
          response (error_handler st err1) = response (error_handler st err2)).
Proof.
  split; [reflexivity|].
  intros H.
  specialize (H Db.empty (TypeError "a") (TypeError "b")). discriminate H.
Qed.

(** C6, amended.  The global error handler answers 500 with the fixed
    [error] and [message] members and a member [details] that is the
    exception's message; the stack is written to the console and is no
    part of the response, which is the same for two exceptions that
    differ in name, stack and items only; the store is untouched.  A
    handler's [catch] clause answers a validation or uniqueness error
    with 400 and the message of the first failing constraint. *)
Theorem error_handler_response st n m stk items :
  let err := {| Db.name := n; Db.message := m; Db.stack := stk; Db.errors := items |} in
  response (error_handler st err)
  = Respond 500
      (InternalError "Internal Server Error"
         "An unexpected error occurred on the server side." m)
  /\ console (error_handler st err) = [stk]
  /\ db (error_handler st err) = st
  /\ (forall n' stk' items',
        response (error_handler st
                    {| Db.name := n'; Db.message := m; Db.stack := stk';
                       Db.errors := items' |})
        = response (error_handler st err))
  /\ (forall item rest,
        response (catch unique_or_validation st
                    (SequelizeValidationError (item :: rest)))
        = Respond 400 (Error "Validation Error" (item_message item))
        /\ response (catch validation_only st
                       (SequelizeValidationError (item :: rest)))
           = Respond 400 (Error "Validation Error" (item_message item)))
  /\ (forall field fields,
        response (catch unique_or_validation st
                    (SequelizeUniqueConstraintError (field :: fields)))
        = Respond 400 (Error "Validation Error" (field +:+ " must be unique"))).
Proof. repeat split; reflexivity. Qed.
End ErrorHandler.

(* ===================================================================== *)
(** ** Deleting an environment *)
(* ===================================================================== *)

Section Cascade.
Import Js Db Server.

Lemma findEnvironment_ext st1 st2 param :
  environments st1 = environments st2 ->
  findEnvironment st1 param = findEnvironment st2 param.
Proof.
  intros E. unfold findEnvironment, Environment_findOne. now rewrite E.
Qed.

Lemma Environment_findOne_none st n :
  Environment_findOne st n = None ->
  forall e, In e (environments st) -> Environment.name e <> n.
Proof.
  unfold Environment_findOne. intros H e He E.
  pose proof (find_none _ _ H e He) as Hn. simpl in Hn.
  rewrite E, String.eqb_refl in Hn. discriminate.
Qed.

Lemma Environment_findOne_absent st n :
  (forall e, In e (environments st) -> Environment.name e <> n) ->
  Environment_findOne st n = None.
Proof.
  intros H. unfold Environment_findOne.
  destruct (List.find _ _) as [e|] eqn:E; [|reflexivity].
  apply find_some in E as [He En]. apply String.eqb_eq in En.
  exfalso. now apply (H e).
Qed.

Lemma Variable_findOne_absent st i n :
  (forall v, In v (variables st) -> Variable_.key v <> (i, n)) ->
  Variable_findOne st i n = None.
Proof.
  intros H. destruct (Variable_findOne st i n) as [v|] eqn:E; [|reflexivity].
  apply Variable_findOne_some in E as (Hv & Ei & En).
  exfalso. apply (H v Hv). unfold Variable_.key. congruence.
Qed.

(** C2.  When the DELETE request resolves to an environment, the answer
    is 204; the environment's row is gone; no row of [variables]
    references its id any more, while the variables of other environments
    stay; and a lookup of any variable under it, by the middleware or by a
    GET request through the same path, is answered 404. *)
Theorem delete_environment_cascade st param e :
  store_ok st ->
  findEnvironment st param = inr e ->
  let out := delete_environment st param in
  response out = Respond 204 Empty
  /\ (forall r, In r (environments (db out)) -> Environment.id r <> Environment.id e)
  /\ List.filter (fun v => Variable_.environment_id v =? Environment.id e)
                 (variables (db out)) = []
  /\ (forall v, In v (variables st) ->
        Variable_.environment_id v <> Environment.id e -> In v (variables (db out)))
  /\ (forall var_name,
        findVariable (db out) e var_name
        = inl (Respond 404
                 (Error "Not Found"
                    ("Variable '" +:+ var_name +:+ "' not found in environment '"
                     +:+ Environment.name e +:+ "'."))))
  /\ (forall var_name,
        status_of (response (get_variable (db out) param var_name)) = Some 404)
  /\ status_of (response (get_environment (db out) param)) = Some 404.
Proof.
  intros Hok Hfind out.
  assert (Hout : out = reply (Environment_destroy st e) (Respond 204 Empty)).
  { unfold out, delete_environment, with_environment. now rewrite Hfind. }
  rewrite Hout. simpl.
  assert (Hgone : forall r, In r (environments (Environment_destroy st e)) ->
                            Environment.id r <> Environment.id e).
  { intros r Hr. simpl in Hr. apply filter_In in Hr as [_ Hr].
    apply negb_true_iff in Hr. now apply Z.eqb_neq. }
  assert (Hvars : forall v, In v (variables (Environment_destroy st e)) ->
                            Variable_.environment_id v <> Environment.id e).
  { intros v Hv. simpl in Hv. apply filter_In in Hv as [_ Hv].
    apply negb_true_iff in Hv. now apply Z.eqb_neq. }
  assert (Hnone : findEnvironment (Environment_destroy st e) param
                  = inl (Respond 404
                           (Error "Not Found"
                              ("Environment '" +:+ lookup_name param +:+ "' not found.")))).
  { apply findEnvironment_inr in Hfind as [He Hname].
    unfold findEnvironment. fold (lookup_name param).
    rewrite Environment_findOne_absent; [reflexivity|].
    intros r Hr Er. apply (Hgone r Hr). f_equal.
    simpl in Hr. apply filter_In in Hr as [Hr _].
    apply (NoDup_map_inj Environment.name (environments st));
      [apply Hok | exact Hr | exact He | congruence]. }
  repeat split.
  - exact Hgone.
  - destruct (List.filter _ _) as [|v l] eqn:Hf; [reflexivity|].
    assert (Hv : In v (v :: l)) by now left.
    rewrite <- Hf in Hv. apply filter_In in Hv as [Hv Ev].
    apply Z.eqb_eq in Ev. now destruct (Hvars v Hv).
  - intros v Hv Hne. simpl. apply filter_In. split; [exact Hv|].
    apply negb_true_iff. now apply Z.eqb_neq.
  - intros var_name. unfold findVariable.
    rewrite Variable_findOne_absent; [reflexivity|].
    intros v Hv E. apply (Hvars v Hv). unfold Variable_.key in E. congruence.
  - intros var_name. unfold get_variable, with_variable, with_environment.
    now rewrite Hnone.
  - unfold get_environment, with_environment. now rewrite Hnone.
Qed.

Lemma session_store_ok : store_ok session_store.
Proof. apply run_store_ok, store_ok_empty. Qed.

Lemma delete_environment_cascade_witness :
  response (delete_environment session_store "prod") = Respond 204 Empty
  /\ variables (db (delete_environment session_store "prod"))
     = [Variable_.mk 3 "A" "3" None false 2].
Proof.
  split.
  - exact (proj1 (delete_environment_cascade session_store "prod"
                    (Environment.mk 1 "PROD" None)
                    session_store_ok eq_refl)).
  - reflexivity.
Defined.
End Cascade.

(* ===================================================================== *)
(** ** The composite unique index *)
(* ===================================================================== *)

Section CompositeUnique.
Import Js Db Server.

Lemma findEnvironment_exists st param e :
  findEnvironment st param = inr e ->
  environment_exists st (Environment.id e) = true.
Proof.
  intros H. apply findEnvironment_inr in H as [He _].
  apply environment_exists_iff. eauto.
Qed.

(** A create that passes every check appends the row and answers 201. *)
Lemma post_variable_created st param e b n x :
  findEnvironment st param = inr e ->
  name b = Value n -> value b = Value x -> is_sensitive b <> Null ->
  too_long n = false ->
  Variable_findOne st (Environment.id e) n = None ->
  let v := Variable_.mk (variables_id_seq st) n x (to_nullable (description b))
                        (sensitive_or_false b) (Environment.id e) in
  post_variable st param b
  = {| db := {| environments := environments st;
                variables := variables st ++ [v];
                environments_id_seq := environments_id_seq st;
                variables_id_seq := variables_id_seq st + 1 |};
       response :=
         Respond 201
           (VariableData ("Variable '" +:+ n +:+ "' created in " +:+ Environment.name e) v);
       console := [] |}.
Proof.
  intros Hfind En Ex Hs Hlen Hnone v.
  unfold post_variable, with_environment. rewrite Hfind.
  unfold Variable_create. rewrite En, Ex.
  assert (Es : (if is_defined (is_sensitive b) then is_sensitive b else Value false)
               = Value (sensitive_or_false b)).
  { unfold sensitive_or_false. destruct (is_sensitive b); simpl; congruence. }
  rewrite Es, Hlen.
  destruct (existsb _ _) eqn:Hex.
  { exfalso. apply existsb_exists in Hex as (r & Hr & Hk).
    apply key_eqb_eq in Hk. now apply (Variable_findOne_none _ _ _ Hnone r Hr). }
  rewrite (findEnvironment_exists _ _ _ Hfind). reflexivity.
Qed.



End CompositeUnique.

(* ===================================================================== *)
(** ** Looking an environment up by name *)
(* ===================================================================== *)

Section Lookup.
Import Js Db Server.

Lemma find_snoc {A} (p : A -> bool) (l : list A) (x : A) :
  List.find p l = None -> p x = true -> List.find p (l ++ [x]) = Some x.
Proof.
  induction l as [|y l IH]; simpl; intros Hn Hx; [now rewrite Hx|].
  destruct (p y); [discriminate | now apply IH].
Qed.

(** After a create, every parameter that [findEnvironment] normalizes to
    the stored name resolves to the created row. *)
Lemma findEnvironment_after_create st b message e param :
  response (post_environment st b) = Respond 201 (EnvironmentData message e) ->
  lookup_name param = Environment.name e ->
  findEnvironment (db (post_environment st b)) param = inr e.
Proof.
  intros Hc Hp.
  apply post_environment_created in Hc as (n & _ & _ & Hnone & He & Henvs & _).
  unfold findEnvironment. fold (lookup_name param).
  unfold Environment_findOne in *. rewrite Henvs, Hp.
  rewrite find_snoc; [reflexivity| |apply String.eqb_refl].
  rewrite He. exact Hnone.
Qed.

(** A parameter in any letter case, with no [.json] at its end. *)
Lemma lookup_name_plain param :
  endsWith (toLowerCase param) ".json" = false ->
  lookup_name param = toUpperCase param.
Proof. unfold lookup_name. now intros ->. Qed.

(** C5.  After an environment has been created with the name [prod],
    the stored name is [PROD], and the lookups by [PROD], [Prod], [prod]
    and by [PROD.json] (in either position: as the parameter seen by the
    middleware, or as the segment that the router splits into the
    parameter [PROD] and the suffix) all yield the created record. *)
Theorem lookup_after_create st b message e :
  name b = Value "prod" ->
  response (post_environment st b) = Respond 201 (EnvironmentData message e) ->
  let st' := db (post_environment st b) in
  Environment.name e = "PROD"
  /\ In e (environments st')
  /\ findEnvironment st' "PROD" = inr e
  /\ findEnvironment st' "Prod" = inr e
  /\ findEnvironment st' "prod" = inr e
  /\ findEnvironment st' "PROD.json" = inr e
  /\ json_parameter "PROD.json" = Some "PROD"
  /\ response (get_environment st' "PROD")
     = Respond 200 (EnvironmentData "Details for environment: PROD" e)
  /\ response (get_environment st' "Prod") = response (get_environment st' "PROD").
Proof.
  intros En Hc st'.
  pose proof Hc as Hc'.
  apply post_environment_created in Hc' as (n & En' & _ & _ & He & Henvs & _).
  rewrite En in En'. injection En' as <-.
  assert (Hname : Environment.name e = "PROD") by (rewrite He; reflexivity).
  assert (Hfind : forall param, lookup_name param = "PROD" ->
                                findEnvironment st' param = inr e).
  { intros param Hp. apply (findEnvironment_after_create st b message e); congruence. }
  repeat split.
  - exact Hname.
  - unfold st'. rewrite Henvs. apply in_app_iff. right. now left.
  - now apply Hfind.
  - now apply Hfind.
  - now apply Hfind.
  - now apply Hfind.
  - unfold get_environment, with_environment. rewrite (Hfind "PROD" eq_refl).
    now rewrite Hname.
Qed.

Lemma lookup_after_create_witness :
  findEnvironment (db (post_environment Db.empty (name_only "prod"))) "PROD.json"
  = inr (Environment.mk 1 "PROD" None).
Proof.
  exact (proj1 (proj2 (proj2 (proj2 (proj2 (proj2
           (lookup_after_create Db.empty (name_only "prod")
              "Environment created successfully" (Environment.mk 1 "PROD" None)
              eq_refl eq_refl))))))).
Defined.
End Lookup.

(* ===================================================================== *)
(** ** Updating a variable *)
(* ===================================================================== *)

Section UpdateVariable.
Import Js Db Server.




(** The first row that satisfies [p] was [v]: after the update it is the
    new row, when that satisfies [p] too. *)
Lemma find_replace_row {A} (id : A -> Z) (p : A -> bool) l v v' :
  List.find p l = Some v -> p v' = true ->
  List.find p (replace_row id (id v) v' l) = Some v'.
Proof.
  intros Hf Hp. induction l as [|r l IH]; [discriminate|]. simpl in *.
  destruct (p r) eqn:Hr.
  - injection Hf as ->. now rewrite Z.eqb_refl, Hp.
  - destruct (id r =? id v); [now rewrite Hp|]. rewrite Hr. now apply IH.
Qed.




(** What the PUT handler hands to the update, read back on the row. *)
Lemma updated_row_put_values v b :
  updated_row v (put_values v b)
  = {| Variable_.id := Variable_.id v;
       Variable_.name := updated (name b) (Variable_.name v);
       Variable_.value := updated (value b) (Variable_.value v);
       Variable_.description :=
         updated_nullable (description b) (Variable_.description v);
       Variable_.is_sensitive := updated (is_sensitive b) (Variable_.is_sensitive v);
       Variable_.environment_id := Variable_.environment_id v |}.
Proof.
  unfold updated_row, put_values. simpl.
  destruct (name b), (value b), (description b), (is_sensitive b),
    (Variable_.description v); reflexivity.
Qed.




End UpdateVariable.

(* ===================================================================== *)
(** ** What a PATCH can change *)
(* ===================================================================== *)

Section PatchScope.
Import Js Db Server.

Lemma get_variable_of_find st param e var_name :
  findEnvironment st param = inr e ->
  status_of (response (get_variable st param var_name))
  = match findVariable st e var_name with inl _ => Some 404 | inr _ => Some 200 end.
Proof.
  intros He. unfold get_variable, with_variable, with_environment. rewrite He.
  unfold findVariable. destruct (Variable_findOne _ _ _); reflexivity.
Qed.




End PatchScope.

(* ===================================================================== *)
(** ** Pagination *)
(* ===================================================================== *)

Section Pagination.
Import Js Db Server.
Context (collate : string -> string -> bool).

Lemma order_by_Permutation {A} (f : A -> string) (rows : list A) :
  Permutation (order_by collate f rows) rows.
Proof. unfold order_by. apply merge_sort_Permutation. Qed.

(** For a collation that is a total preorder, a page lists its rows by
    ascending name. *)
Lemma order_by_Sorted {A} (f : A -> string) (rows : list A) :
  (forall a b, collate a b = true \/ collate b a = true) ->
  Sorted (fun a b => Is_true (collate (f a) (f b))) (order_by collate f rows).
Proof.
  intros Htotal. unfold order_by.
  assert (Total (fun a b : A => Is_true (collate (f a) (f b)))) as HT.
  { intros a b. destruct (Htotal (f a) (f b)) as [H|H]; rewrite H; simpl; auto. }
  apply (Sorted_merge_sort (fun a b : A => Is_true (collate (f a) (f b))) rows).
Qed.

Lemma length_order_by {A} (f : A -> string) (rows : list A) :
  length (order_by collate f rows) = length rows.
Proof. apply Permutation_length, order_by_Permutation. Qed.

(** A query parameter that is absent, or holds no digit, gives the
    default. *)
Lemma or_default_absent d : or_default (parseInt None) d = d.
Proof. reflexivity. Qed.

Lemma or_default_no_digit s d :
  Forall (fun c => is_digit c = false) (chars s) ->
  or_default (parseInt (Some s)) d = d.
Proof. intros H. now rewrite parseInt_no_digit. Qed.

(** The handler on numbers: page [page] of [limit] rows, for a positive
    page and limit. *)
Lemma list_environments_page st query_page query_limit page limit :
  or_default (parseInt query_page) 1 = page ->
  or_default (parseInt query_limit) 10 = limit ->
  0 < page -> 0 < limit ->
  response (list_environments collate st query_page query_limit)
  = Respond 200
      (EnvironmentPage (Z.of_nat (length (environments st)))
         (ceil_div (Z.of_nat (length (environments st))) limit)
         page
         (take (Z.to_nat limit)
               (drop (Z.to_nat ((page - 1) * limit))
                     (order_by collate Environment.name (environments st))))).
Proof.
  intros Hp Hl Hpage Hlimit.
  unfold list_environments, Environment_findAndCountAll, page_of.
  rewrite Hp, Hl.
  destruct (Z.ltb_spec limit 0) as [?|_]; [lia|].
  destruct (Z.ltb_spec ((page - 1) * limit) 0) as [?|_]; [nia|].
  simpl. now rewrite length_order_by.
Qed.

(** C8.  [page] and [limit] are 1 and 10 when the query parameter is
    absent or holds no digit.  With 15 environments and [limit=10], page 1
    (asked for explicitly or by default) has 10 items and page 2 the 5
    others, in the order of the names; both responses carry
    [total_items = 15] and [total_pages = 2]. *)
Theorem list_environments_pagination st :
  length (environments st) = 15%nat ->
  or_default (parseInt None) 1 = 1
  /\ or_default (parseInt None) 10 = 10
  /\ (forall s, Forall (fun c => is_digit c = false) (chars s) ->
                or_default (parseInt (Some s)) 1 = 1
                /\ or_default (parseInt (Some s)) 10 = 10)
  /\ (forall q d, parseInt q = None -> or_default (parseInt q) d = d)
  /\ exists page1 page2,
       response (list_environments collate st (Some "1") (Some "10"))
       = Respond 200 (EnvironmentPage 15 2 1 page1)
       /\ response (list_environments collate st None (Some "10"))
          = Respond 200 (EnvironmentPage 15 2 1 page1)
       /\ response (list_environments collate st None None)
          = Respond 200 (EnvironmentPage 15 2 1 page1)
       /\ response (list_environments collate st (Some "2") (Some "10"))
          = Respond 200 (EnvironmentPage 15 2 2 page2)
       /\ length page1 = 10%nat
       /\ length page2 = 5%nat
       /\ (page1 ++ page2)%list = order_by collate Environment.name (environments st)
       /\ Permutation (page1 ++ page2) (environments st).
Proof.
  intros Hlen.
  split; [reflexivity|]. split; [reflexivity|]. split.
  { intros s Hs. split; now apply or_default_no_digit. }
  split; [now intros q d ->|].
  set (sorted := order_by collate Environment.name (environments st)).
  assert (Hsorted : length sorted = 15%nat)
    by (unfold sorted; now rewrite length_order_by).
  exists (take 10 sorted), (take 10 (drop 10 sorted)).
  assert (Hpage : forall qp ql page,
            or_default (parseInt qp) 1 = page -> or_default (parseInt ql) 10 = 10 ->
            0 < page ->
            response (list_environments collate st qp ql)
            = Respond 200
                (EnvironmentPage 15 2 page
                   (take 10 (drop (Z.to_nat ((page - 1) * 10)) sorted)))).
  { intros qp ql page Hp Hl Hpos.
    rewrite (list_environments_page st qp ql page 10 Hp Hl Hpos ltac:(lia)).
    rewrite Hlen. reflexivity. }
  repeat split.
  - apply (Hpage (Some "1") (Some "10") 1); [reflexivity | reflexivity | lia].
  - apply (Hpage None (Some "10") 1); [reflexivity | reflexivity | lia].
  - apply (Hpage None None 1); [reflexivity | reflexivity | lia].
  - apply (Hpage (Some "2") (Some "10") 2); [reflexivity | reflexivity | lia].
  - rewrite length_take. lia.
  - rewrite length_take, length_drop. lia.
  - rewrite (take_ge (drop 10 sorted)) by (rewrite length_drop; lia).
    apply take_drop.
  - rewrite (take_ge (drop 10 sorted)) by (rewrite length_drop; lia).
    rewrite take_drop. apply order_by_Permutation.
Qed.
End Pagination.

Section PaginationWitness.
Import Js Db Server.

Lemma list_environments_pagination_witness :
  exists page1,
    response (list_environments String.leb fifteen_store (Some "1") (Some "10"))
    = Respond 200 (EnvironmentPage 15 2 1 page1)
    /\ length page1 = 10%nat.
Proof.
  destruct (list_environments_pagination String.leb fifteen_store eq_refl)
    as (_ & _ & _ & _ & page1 & page2 & H1 & _ & _ & _ & Hl & _).
  exists page1. split; assumption.
Defined.
End PaginationWitness.

(* ===================================================================== *)
(** ** Names that end in [.JSON] *)
(* ===================================================================== *)

Section JsonSuffix.
Import Js Db Server.

(** The name looked up for a parameter that spells a stored name ending
    in [.JSON]: the stored name without its last five characters. *)
Lemma lookup_name_json param :
  endsWith (toUpperCase param) ".JSON" = true ->
  lookup_name param
  = Js.substring (toUpperCase param) 0 (String.length (toUpperCase param) - 5)
  /\ (String.length (lookup_name param) < String.length (toUpperCase param))%nat.
Proof.
  intros H. pose proof (endsWith_length _ _ H) as Hlen.
  rewrite length_toUpperCase in Hlen. simpl in Hlen.
  assert (E : lookup_name param
              = Js.substring (toUpperCase param) 0 (String.length (toUpperCase param) - 5)).
  { unfold lookup_name. rewrite (endsWith_json_of_upper _ H).
    unfold Js.substring, toUpperCase.
    now rewrite substring_map_chars, length_map_chars. }
  split; [exact E|].
  rewrite E. unfold Js.substring. rewrite Nat.sub_0_r.
  rewrite length_substring_prefix; rewrite length_toUpperCase; lia.
Qed.

(** The environment found for such a parameter is another one. *)
Lemma findEnvironment_json st e param :
  endsWith (Environment.name e) ".JSON" = true ->
  toUpperCase param = Environment.name e ->
  match findEnvironment st param with
  | inl r =>
      r = Respond 404
            (Error "Not Found" ("Environment '" +:+ lookup_name param +:+ "' not found."))
  | inr e' =>
      In e' (environments st)
      /\ Environment.name e' = lookup_name param
      /\ Environment.name e' <> Environment.name e
  end.
Proof.
  intros Hsuffix Hparam. rewrite <- Hparam in Hsuffix.
  destruct (lookup_name_json param Hsuffix) as [_ Hlt].
  destruct (findEnvironment st param) as [r|e'] eqn:Hf.
  - now apply findEnvironment_inl in Hf.
  - apply findEnvironment_inr in Hf as [He' Hn]. repeat split; auto.
    intros E. rewrite Hn, <- Hparam in E. rewrite E in Hlt. lia.
Qed.

Lemma json_parameter_some segment prefix :
  json_parameter segment = Some prefix ->
  prefix = Js.substring segment 0 (String.length segment - 5)
  /\ (String.length prefix < String.length segment)%nat.
Proof.
  unfold json_parameter.
  destruct (Nat.ltb_spec 5 (String.length segment)) as [Hlen|]; [|discriminate].
  destruct (endsWith _ _); [|discriminate].
  simpl. intros [= <-]. split; [reflexivity|].
  unfold Js.substring. rewrite Nat.sub_0_r, length_substring_prefix; lia.
Qed.

Lemma lookup_name_length param :
  (String.length (lookup_name param) <= String.length param)%nat.
Proof.
  unfold lookup_name. rewrite length_toUpperCase.
  destruct (endsWith (toLowerCase param) ".json") eqn:E; [|lia].
  apply endsWith_length in E. rewrite length_toLowerCase in E. simpl in E.
  unfold Js.substring. rewrite Nat.sub_0_r, length_substring_prefix; lia.
Qed.

Lemma in_environments_after_update st e e' d :
  In e (environments st) -> Environment.id e' <> Environment.id e ->
  In e (environments (fst (Environment_update st e' d))).
Proof.
  intros He Hne. unfold Environment_update.
  destruct d; simpl; auto; unfold replace_row; apply in_map_iff; exists e;
    (split; [|exact He]);
    destruct (Z.eqb_spec (Environment.id e) (Environment.id e')); congruence.
Qed.

Lemma Environment_update_id st e d st' e' :
  Environment_update st e d = (st', Return e') ->
  Environment.id e' = Environment.id e /\ Environment.name e' = Environment.name e.
Proof.
  unfold Environment_update. destruct d; intros [= <- <-]; auto.
Qed.

Lemma Environment_update_returns st e d :
  exists e', Environment_update st e d = (fst (Environment_update st e d), Return e').
Proof. unfold Environment_update. destruct d; eexists; reflexivity. Qed.

(** C10.  Let an environment be stored under a name that ends in
    [.JSON], and let a request address it by that name, in any letter
    case.  The middleware looks up the name without its last five
    characters: it answers 404 or attaches another environment, whose name
    is that prefix.  Whatever the method of the request to
    [/environments/<name>], the stored environment is still in the table
    afterwards, as it was, and it is never the data of the response. *)
Theorem json_named_environment_unreachable collate st e param :
  store_ok st ->
  In e (environments st) ->
  endsWith (Environment.name e) ".JSON" = true ->
  toUpperCase param = Environment.name e ->
  lookup_name param
  = Js.substring (Environment.name e) 0 (String.length (Environment.name e) - 5)
  /\ match findEnvironment st param with
     | inl r => status_of r = Some 404
     | inr e' => Environment.name e' = lookup_name param /\ e' <> e
     end
  /\ forall m b,
       let out := app collate st (request m ["environments"; param] b) in
       In e (environments (db out))
       /\ forall message, response out <> Respond 200 (EnvironmentData message e).
Proof.
  intros Hok He Hsuffix Hparam.
  pose proof (findEnvironment_json st e param Hsuffix Hparam) as Hfind.
  assert (Hup : endsWith (toUpperCase param) ".JSON" = true) by now rewrite Hparam.
  split; [|split].
  - destruct (lookup_name_json param Hup) as [E _]. now rewrite E, Hparam.
  - destruct (findEnvironment st param) as [r|e']; [now subst r|].
    destruct Hfind as (_ & Hn & Hne). split; [exact Hn | congruence].
  - (* another environment of the table has another id *)
    assert (Hid : forall e', In e' (environments st) ->
              Environment.name e' <> Environment.name e ->
              Environment.id e' <> Environment.id e).
    { intros e' He' Hne E. apply Hne. f_equal.
      apply (NoDup_map_inj Environment.id (environments st));
        [apply Hok | exact He' | exact He | exact E]. }
    assert (Hnonempty : parameter param = true).
    { unfold parameter. apply negb_true_iff, String.eqb_neq. intros ->.
      rewrite <- Hparam in Hsuffix. discriminate Hsuffix. }
    intros m b out. unfold out, app, request. simpl.
    change (literal "environments" "environments") with true.
    rewrite Hnonempty. simpl.
    destruct m.
    + (* GET *)
      destruct (json_parameter param) as [prefix|] eqn:Hjson.
      * unfold get_environment_json, with_environment.
        destruct (findEnvironment st prefix) as [r|e0] eqn:Hf0.
        -- apply findEnvironment_inl in Hf0 as [_ ->]. simpl. split; [exact He|].
           intros message. discriminate.
        -- destruct (Environment_findByPk st (Environment.id e0)) as [[e1 vs]|];
             simpl; (split; [exact He | intros message; discriminate]).
      * unfold get_environment, with_environment.
        destruct (findEnvironment st param) as [r|e']; simpl.
        -- subst r. split; [exact He | intros message; discriminate].
        -- destruct Hfind as (_ & _ & Hne). split; [exact He|].
           intros message [= _ E]. apply Hne. now rewrite E.
    + (* POST *)
      simpl. split; [exact He | intros message; discriminate].
    + (* PUT *)
      unfold put_environment, with_environment.
      destruct (findEnvironment st param) as [r|e']; simpl.
      * subst r. split; [exact He | intros message; discriminate].
      * destruct Hfind as (He' & _ & Hne).
        destruct (Environment_update_returns st e' (description b)) as [e'' Hu].
        pose proof (in_environments_after_update st e e' (description b) He
                      (Hid e' He' Hne)) as Hstay.
        rewrite Hu. simpl. split; [exact Hstay|].
        intros message [= _ E]. apply Environment_update_id in Hu as [_ Hn].
        apply Hne. now rewrite <- Hn, E.
    + (* PATCH *)
      unfold patch_environment, with_environment.
      destruct (findEnvironment st param) as [r|e']; simpl.
      * subst r. split; [exact He | intros message; discriminate].
      * destruct Hfind as (He' & _ & Hne).
        destruct (is_defined (description b)).
        -- destruct (Environment_update_returns st e' (description b)) as [e'' Hu].
           pose proof (in_environments_after_update st e e' (description b) He
                         (Hid e' He' Hne)) as Hstay.
           rewrite Hu. simpl. split; [exact Hstay|].
           intros message [= _ E]. apply Environment_update_id in Hu as [_ Hn].
           apply Hne. now rewrite <- Hn, E.
        -- simpl. split; [exact He|].
           intros message [= _ E]. apply Hne. now rewrite E.
    + (* DELETE *)
      unfold delete_environment, with_environment.
      destruct (findEnvironment st param) as [r|e']; simpl.
      * subst r. split; [exact He | intros message; discriminate].
      * destruct Hfind as (He' & _ & Hne). split; [|intros message; discriminate].
        apply filter_In. split; [exact He|].
        apply negb_true_iff, Z.eqb_neq. intros E. now apply (Hid e' He' Hne).
Qed.

Lemma json_named_environment_unreachable_witness :
  lookup_name "a.json" = "A"
  /\ In (Environment.mk 1 "A.JSON" None)
        (environments
           (db (app String.leb json_store
                  (request DELETE ["environments"; "a.json"] no_body)))).
Proof.
  pose proof (json_named_environment_unreachable String.leb json_store
                (Environment.mk 1 "A.JSON" None) "a.json"
                (run_store_ok String.leb json_session Db.empty store_ok_empty)
                (or_introl eq_refl) eq_refl eq_refl) as (Hname & _ & Hreq).
  split; [exact Hname | apply (Hreq DELETE no_body)].
Defined.
End JsonSuffix.

(* ===================================================================== *)
(** ** What a request does to the store, and that it is answered *)
(* ===================================================================== *)

Section Outcomes.
Import Js Db Server.
Context (collate : string -> string -> bool).

(** A property of outcomes that holds of every reply that keeps the store
    and of the global error handler holds of a handler behind
    [findEnvironment] when it holds of the handler's body. *)
Lemma with_environment_outcome (P : Outcome -> Prop) st env_name k :
  (forall r, findEnvironment st env_name = inl r -> P (reply st r)) ->
  (forall e, findEnvironment st env_name = inr e -> P (k e)) ->
  P (with_environment st env_name k).
Proof.
  intros Hr Hk. unfold with_environment.
  destruct (findEnvironment st env_name) as [r|e]; auto.
Qed.

Lemma with_variable_outcome (P : Outcome -> Prop) st env_name var_name k :
  (forall r, findEnvironment st env_name = inl r -> P (reply st r)) ->
  (forall e r, findEnvironment st env_name = inr e ->
               findVariable st e var_name = inl r -> P (reply st r)) ->
  (forall e v, findEnvironment st env_name = inr e ->
               findVariable st e var_name = inr v -> P (k e v)) ->
  P (with_variable st env_name var_name k).
Proof.
  intros Hr Hv Hk. unfold with_variable. apply with_environment_outcome; [exact Hr|].
  intros e He. destruct (findVariable st e var_name) as [r|v] eqn:E; eauto.
Qed.

Lemma findVariable_inl st e var_name r :
  findVariable st e var_name = inl r ->
  Variable_findOne st (Environment.id e) var_name = None /\ status_of r = Some 404.
Proof.
  unfold findVariable. destruct (Variable_findOne _ _ _); [discriminate|].
  intros [= <-]. auto.
Qed.


Lemma check_not_null_cons {A} model field (x : Field A) :
  check_not_null model field x = [] \/
  check_not_null model field x = [not_null model field].
Proof. destruct x; simpl; auto. Qed.

























Lemma db_get_environment_json st p : db (get_environment_json st p) = st.
Proof.
  apply (with_environment_outcome (fun out => db out = st)); [reflexivity|].
  intros e _. destruct (Environment_findByPk _ _) as [[e' vs]|]; reflexivity.
Qed.

Lemma db_get_environment st p : db (get_environment st p) = st.
Proof. apply (with_environment_outcome (fun out => db out = st)); reflexivity. Qed.

Lemma db_list_environments st qp ql : db (list_environments collate st qp ql) = st.
Proof.
  unfold list_environments. cbv zeta.
  destruct (Environment_findAndCountAll _ _ _ _) as [[count rows]|err]; reflexivity.
Qed.

Lemma db_list_variables st p qp ql : db (list_variables collate st p qp ql) = st.
Proof.
  apply (with_environment_outcome (fun out => db out = st)); [reflexivity|].
  intros e _. cbv zeta.
  destruct (Variable_findAndCountAll _ _ _ _ _) as [[count rows]|err]; reflexivity.
Qed.

Lemma db_get_variable st p vn : db (get_variable st p vn) = st.
Proof. apply (with_variable_outcome (fun out => db out = st)); reflexivity. Qed.

(** X2.  A GET request never changes the store, whatever its path, query
    and body. *)
Theorem get_read_only st url segments page limit b :
  db (app collate st
        {| method := GET; originalUrl := url; path := segments;
           query_page := page; query_limit := limit; body := b |}) = st.
Proof.
  unfold app. simpl.
  repeat case_match;
    auto using db_get_environment_json, db_get_environment, db_list_environments,
      db_list_variables, db_get_variable.
Qed.
End Outcomes.

(* ===================================================================== *)
(** ** The stores that requests can build *)
(* ===================================================================== *)

Section Reachable.
Import Js Db Server.
Context (collate : string -> string -> bool).

Lemma names_ok_empty : names_ok Db.empty.
Proof. split; intros ? []. Qed.

Lemma Environment_create_names st n d :
  names_ok st -> names_ok (fst (Environment_create st n d)).
Proof.
  intros Hok. unfold Environment_create.
  destruct n as [| |n]; simpl; try exact Hok.
  destruct (too_long (toUpperCase n)) eqn:Hlen; [exact Hok|].
  destruct (existsb _ _); [exact Hok|].
  destruct Hok as [H1 H2 H3]. split; simpl; auto.
  - intros e He. apply in_app_iff in He as [He|[<-|[]]]; auto.
    simpl. apply toUpperCase_idempotent.
  - intros e He. apply in_app_iff in He as [He|[<-|[]]]; auto.
Qed.

Lemma Environment_update_names st e d :
  names_ok st -> In e (environments st) ->
  names_ok (fst (Environment_update st e d)).
Proof.
  intros Hok He. unfold Environment_update.
  destruct d; [exact Hok| |]; destruct Hok as [H1 H2 H3]; split; simpl; auto;
    intros r Hr; apply in_replace_row in Hr as [->|[Hr _]]; simpl; auto.
Qed.

Lemma Environment_destroy_names st e :
  names_ok st -> names_ok (Environment_destroy st e).
Proof.
  intros [H1 H2 H3]. split; simpl; intros r Hr; apply filter_In in Hr as [Hr _]; auto.
Qed.

Lemma Variable_create_names st n x d b i :
  names_ok st -> names_ok (fst (Variable_create st n x d b i)).
Proof.
  intros Hok. unfold Variable_create.
  destruct n as [| |n]; try exact Hok.
  destruct x as [| |x]; try exact Hok.
  destruct b as [| |b]; try exact Hok.
  destruct (too_long n) eqn:Hlen; [exact Hok|].
  destruct (existsb _ _); [exact Hok|].
  destruct (negb _); [exact Hok|].
  destruct Hok as [H1 H2 H3]. split; simpl; auto.
  intros v Hv. apply in_app_iff in Hv as [Hv|[<-|[]]]; auto.
Qed.

Lemma Variable_update_names st v values :
  names_ok st -> In v (variables st) ->
  names_ok (fst (Variable_update st v values)).
Proof.
  intros Hok Hv. unfold Variable_update. cbv zeta.
  destruct (_ ++ _)%list; [|exact Hok].
  destruct (decide _) as [|Hne]; [exact Hok|].
  destruct (is_defined (set_name values) && too_long _) eqn:Hlen; [exact Hok|].
  destruct (negb (key_eqb _ _) && _); [exact Hok|].
  destruct (negb (_ =? _) && _); [exact Hok|].
  destruct Hok as [H1 H2 H3]. split; simpl; auto.
  intros r Hr. apply in_replace_row in Hr as [->|[Hr _]]; auto.
  unfold updated_row in *. simpl in *.
  destruct (set_name values) as [| |n']; simpl in *; auto.
Qed.

Lemma Variable_destroy_names st v :
  names_ok st -> names_ok (Variable_destroy st v).
Proof.
  intros [H1 H2 H3]. split; simpl; auto.
  intros r Hr. apply filter_In in Hr as [Hr _]. auto.
Qed.

Lemma names_ok_catch names st err : names_ok st -> names_ok (db (catch names st err)).
Proof. now rewrite db_catch. Qed.

Lemma names_with_environment st p k :
  names_ok st ->
  (forall e, In e (environments st) -> names_ok (db (k e))) ->
  names_ok (db (with_environment st p k)).
Proof.
  intros Hok Hk. apply (with_environment_outcome (fun out => names_ok (db out)));
    [intros; exact Hok|].
  intros e He. apply Hk. now apply findEnvironment_inr in He.
Qed.

Lemma names_with_variable st p vn k :
  names_ok st ->
  (forall e v, In e (environments st) -> In v (variables st) -> names_ok (db (k e v))) ->
  names_ok (db (with_variable st p vn k)).
Proof.
  intros Hok Hk. apply (with_variable_outcome (fun out => names_ok (db out)));
    try (intros; exact Hok).
  intros e v He Hv. apply Hk; [now apply findEnvironment_inr in He|].
  now apply findVariable_inr in Hv.
Qed.

Lemma names_post_environment st b : names_ok st -> names_ok (db (post_environment st b)).
Proof.
  intros Hok. unfold post_environment.
  pose proof (Environment_create_names st (name b) (description b) Hok) as Hc.
  destruct (Environment_create _ _ _) as [st' [e|err]]; [exact Hc|now rewrite db_catch].
Qed.

Lemma names_put_environment st p b : names_ok st -> names_ok (db (put_environment st p b)).
Proof.
  intros Hok. apply names_with_environment; [exact Hok|]. intros e He.
  pose proof (Environment_update_names st e (description b) Hok He) as Hc.
  destruct (Environment_update _ _ _) as [st' [e'|err]]; [exact Hc|now rewrite db_catch].
Qed.

Lemma names_patch_environment st p b :
  names_ok st -> names_ok (db (patch_environment st p b)).
Proof.
  intros Hok. apply names_with_environment; [exact Hok|]. intros e He.
  destruct (is_defined _); [|exact Hok].
  pose proof (Environment_update_names st e (description b) Hok He) as Hc.
  destruct (Environment_update _ _ _) as [st' [e'|err]]; [exact Hc|now rewrite db_catch].
Qed.

Lemma names_delete_environment st p :
  names_ok st -> names_ok (db (delete_environment st p)).
Proof.
  intros Hok. apply names_with_environment; [exact Hok|]. intros e He.
  now apply Environment_destroy_names.
Qed.

Lemma names_post_variable st p b : names_ok st -> names_ok (db (post_variable st p b)).
Proof.
  intros Hok. apply names_with_environment; [exact Hok|]. intros e He.
  match goal with |- context [Variable_create ?s ?n ?x ?d ?i ?k] =>
    pose proof (Variable_create_names s n x d i k Hok) as Hc;
    destruct (Variable_create s n x d i k) as [st' [v|err]] end;
    [exact Hc|now rewrite db_catch].
Qed.

Lemma names_put_variable st p vn b :
  names_ok st -> names_ok (db (put_variable st p vn b)).
Proof.
  intros Hok. apply names_with_variable; [exact Hok|]. intros e v He Hv.
  pose proof (Variable_update_names st v (put_values v b) Hok Hv) as Hc.
  destruct (Variable_update _ _ _) as [st' [v'|err]]; [exact Hc|now rewrite db_catch].
Qed.

Lemma names_patch_variable st p vn b :
  names_ok st -> names_ok (db (patch_variable st p vn b)).
Proof.
  intros Hok. apply names_with_variable; [exact Hok|]. intros e v He Hv.
  pose proof (Variable_update_names st v (body_values b) Hok Hv) as Hc.
  destruct (Variable_update _ _ _) as [st' [v'|err]]; [exact Hc|now rewrite db_catch].
Qed.

Lemma names_delete_variable st p vn :
  names_ok st -> names_ok (db (delete_variable st p vn)).
Proof.
  intros Hok. apply names_with_variable; [exact Hok|]. intros e v He Hv.
  now apply Variable_destroy_names.
Qed.

Lemma app_names_ok st req : names_ok st -> names_ok (db (app collate st req)).
Proof.
  intros Hok. destruct req as [m url segments page limit b].
  destruct m; unfold app; simpl; repeat case_match;
    rewrite ?db_get_environment_json, ?db_get_environment, ?db_list_environments,
      ?db_list_variables, ?db_get_variable;
    try exact Hok;
    auto using names_post_environment, names_put_environment, names_patch_environment,
      names_delete_environment, names_post_variable, names_put_variable,
      names_patch_variable, names_delete_variable.
Qed.

Lemma run_names_ok reqs : forall st, names_ok st -> names_ok (run collate st reqs).
Proof.
  induction reqs as [|req l IH]; intros st Hok; simpl; [exact Hok|].
  apply IH. now apply app_names_ok.
Qed.

End Reachable.

(* ===================================================================== *)
(** ** Addressing an environment by its name *)
(* ===================================================================== *)

Section ByName.
Import Js Db Server.

Lemma map_chars_append f s t :
  map_chars f (s +:+ t) = map_chars f s +:+ map_chars f t.
Proof. induction s as [|c s IH]; simpl; [reflexivity | now rewrite IH]. Qed.

Lemma length_string_append s t :
  String.length (s +:+ t) = (String.length s + String.length t)%nat.
Proof. induction s as [|c s IH]; simpl; [reflexivity | now rewrite IH]. Qed.

Lemma substring_all s : String.substring 0 (String.length s) s = s.
Proof. induction s as [|c s IH]; simpl; [reflexivity | now rewrite IH]. Qed.

Lemma substring_append_suffix s t :
  String.substring (String.length s) (String.length t) (s +:+ t) = t.
Proof. induction s as [|c s IH]; simpl; [apply substring_all | exact IH]. Qed.

Lemma substring_append_prefix s t :
  String.substring 0 (String.length s) (s +:+ t) = s.
Proof.
  induction s as [|c s IH]; simpl; [now destruct t | now rewrite IH].
Qed.

Lemma endsWith_append s t : endsWith (s +:+ t) t = true.
Proof.
  unfold endsWith. rewrite length_string_append.
  apply andb_true_iff. split; [apply Nat.leb_le; lia|].
  replace (String.length s + String.length t - String.length t)%nat
    with (String.length s) by lia.
  rewrite substring_append_suffix. apply String.eqb_refl.
Qed.

(** The parameter [<name>.json] is looked up as [<NAME>]. *)
Lemma lookup_name_json_suffix param :
  lookup_name (param +:+ ".json") = toUpperCase param.
Proof.
  unfold lookup_name, toLowerCase. rewrite map_chars_append.
  change (map_chars lower_char ".json") with ".json".
  rewrite endsWith_append. unfold Js.substring.
  rewrite length_string_append. simpl String.length.
  replace (String.length param + 5 - 5 - 0)%nat with (String.length param) by lia.
  now rewrite substring_append_prefix.
Qed.

(** A parameter that spells a name with no [.JSON] at its end is looked up
    as that name. *)
Lemma lookup_name_no_suffix param :
  endsWith (toUpperCase param) ".JSON" = false ->
  lookup_name param = toUpperCase param.
Proof.
  intros H. apply lookup_name_plain.
  destruct (endsWith (toLowerCase param) ".json") eqn:E; [|reflexivity].
  apply (endsWith_map_chars upper_char) in E.
  change (map_chars upper_char ".json") with ".JSON" in E.
  unfold toLowerCase in E. rewrite map_chars_compose in E.
  rewrite (map_chars_ext _ upper_char) in E by apply upper_lower_char.
  unfold toUpperCase in H. congruence.
Qed.

Lemma Environment_findOne_unique st e :
  store_ok st -> In e (environments st) ->
  Environment_findOne st (Environment.name e) = Some e.
Proof.
  intros Hok He. destruct (Environment_findOne st (Environment.name e)) as [x|] eqn:E.
  - apply Environment_findOne_some in E as [Hx En]. f_equal.
    apply (NoDup_map_inj Environment.name (environments st)); auto. apply Hok.
  - exfalso. now apply (Environment_findOne_none _ _ E e He).
Qed.

(** X4.  On a store that satisfies the constraints, an environment is found
    by its name written in any letter case and followed by [.json]; and,
    when its stored name does not end in [.JSON], by the name alone, and
    then the detail request returns the stored row. *)
Theorem findEnvironment_by_name st e param :
  store_ok st ->
  In e (environments st) ->
  toUpperCase param = Environment.name e ->
  findEnvironment st (param +:+ ".json") = inr e
  /\ (endsWith (Environment.name e) ".JSON" = false ->
      findEnvironment st param = inr e
      /\ response (get_environment st param)
         = Respond 200
             (EnvironmentData ("Details for environment: " +:+ Environment.name e) e)).
Proof.
  intros Hok He Hname.
  assert (Hfind : forall p, lookup_name p = Environment.name e ->
                            findEnvironment st p = inr e).
  { intros p Hp. unfold findEnvironment. fold (lookup_name p).
    now rewrite Hp, Environment_findOne_unique. }
  split.
  - apply Hfind. now rewrite lookup_name_json_suffix.
  - intros Hsuffix. rewrite <- Hname in Hsuffix.
    assert (Hp : findEnvironment st param = inr e)
      by (apply Hfind; now rewrite lookup_name_no_suffix).
    split; [exact Hp|].
    unfold get_environment, with_environment. now rewrite Hp.
Qed.

Lemma findEnvironment_by_name_witness :
  findEnvironment json_store "a.JSON.json" = inr (Environment.mk 1 "A.JSON" None)
  /\ findEnvironment session_store "Dev" = inr (Environment.mk 2 "DEV" None).
Proof.
  split.
  - apply (findEnvironment_by_name json_store (Environment.mk 1 "A.JSON" None) "a.JSON"
             (run_store_ok String.leb json_session Db.empty store_ok_empty)
             (or_introl eq_refl) eq_refl).
  - apply (findEnvironment_by_name session_store (Environment.mk 2 "DEV" None) "Dev"
             session_store_ok (or_intror (or_introl eq_refl)) eq_refl).
    reflexivity.
Defined.
End ByName.

(* ===================================================================== *)
(** ** Creating: duplicates, width, and what a new environment holds *)
(* ===================================================================== *)

Section Creating.
Import Js Db Server.



End Creating.

(* ===================================================================== *)
(** ** Updating an environment *)
(* ===================================================================== *)

Section UpdateEnvironment.
Import Js Db Server.

Lemma replace_row_other {A} (id : A -> Z) (i : Z) (row' : A) l r :
  In r l -> id r <> i -> In r (replace_row id i row' l).
Proof.
  intros Hr Hne. unfold replace_row. apply in_map_iff. exists r.
  split; [|exact Hr]. destruct (Z.eqb_spec (id r) i); congruence.
Qed.

Lemma findEnvironment_replaced st st' param e e' :
  findEnvironment st param = inr e ->
  environments st' = replace_row Environment.id (Environment.id e) e' (environments st) ->
  Environment.name e' = Environment.name e ->
  findEnvironment st' param = inr e'.
Proof.
  intros He Henvs Hname. unfold findEnvironment in *. fold (lookup_name param) in *.
  unfold Environment_findOne in *. rewrite Henvs.
  destruct (List.find _ (environments st)) as [x|] eqn:Hf; [|discriminate].
  injection He as ->.
  rewrite (find_replace_row Environment.id _ (environments st) e e' Hf); [reflexivity|].
  apply find_some in Hf as [_ Hn]. now rewrite Hname.
Qed.

(** X8.  A PUT on an environment that was found is answered 200 with the
    row whose description is that of the body (kept when the body has
    none) and whose id and name are unchanged, whatever [name] the body
    holds; the same parameter then resolves to the updated row; the other
    environments and all the variables are as before; and a PATCH with the
    same body leaves the same store. *)
Theorem put_environment_description st param e b :
  findEnvironment st param = inr e ->
  let out := put_environment st param b in
  let e' := Environment.mk (Environment.id e) (Environment.name e)
              (updated_nullable (description b) (Environment.description e)) in
  response out
  = Respond 200
      (EnvironmentData ("Environment " +:+ Environment.name e
                        +:+ " fully updated (description only)") e')
  /\ findEnvironment (db out) param = inr e'
  /\ variables (db out) = variables st
  /\ (forall r, In r (environments st) -> Environment.id r <> Environment.id e ->
                In r (environments (db out)))
  /\ length (environments (db out)) = length (environments st)
  /\ db (patch_environment st param b) = db out.
Proof.
  intros He out e'.
  pose proof (findEnvironment_inr _ _ _ He) as [Hin Hname].
  assert (Hreplaced : forall st' d0,
            environments st'
            = replace_row Environment.id (Environment.id e)
                (Environment.mk (Environment.id e) (Environment.name e) d0)
                (environments st) ->
            findEnvironment st' param
            = inr (Environment.mk (Environment.id e) (Environment.name e) d0)
            /\ (forall r, In r (environments st) ->
                          Environment.id r <> Environment.id e ->
                          In r (environments st'))
            /\ length (environments st') = length (environments st)).
  { intros st' d0 Henvs. split; [|split].
    - apply (findEnvironment_replaced st st' param e _ He Henvs). reflexivity.
    - intros r Hr Hne. rewrite Henvs. now apply replace_row_other.
    - rewrite Henvs. unfold replace_row. apply length_map. }
  unfold out, put_environment, patch_environment, with_environment. rewrite He.
  destruct (description b) as [| |d] eqn:Ed.
  - assert (E : e' = e) by (unfold e'; now destruct e).
    rewrite E. cbn. split; [reflexivity|]. split; [exact He|].
    split; [reflexivity|]. split; [auto|]. split; reflexivity.
  - cbn.
    match goal with |- context [findEnvironment ?s param] =>
      destruct (Hreplaced s None eq_refl) as (H1 & H2 & H3) end.
    split; [reflexivity|]. split; [exact H1|]. split; [reflexivity|].
    split; [exact H2|]. split; [exact H3|reflexivity].
  - cbn.
    match goal with |- context [findEnvironment ?s param] =>
      destruct (Hreplaced s (Some d) eq_refl) as (H1 & H2 & H3) end.
    split; [reflexivity|]. split; [exact H1|]. split; [reflexivity|].
    split; [exact H2|]. split; [exact H3|reflexivity].
Qed.

Lemma put_environment_description_witness :
  findEnvironment
    (db (put_environment session_store "prod"
           {| name := Value "renamed"; value := Undefined;
              description := Value "production"; is_sensitive := Undefined;
              environment_id := None |}))
    "prod"
  = inr (Environment.mk 1 "PROD" (Some "production")).
Proof.
  pose proof (put_environment_description session_store "prod"
                (Environment.mk 1 "PROD" None)
                {| name := Value "renamed"; value := Undefined;
                   description := Value "production"; is_sensitive := Undefined;
                   environment_id := None |} eq_refl) as H.
  cbv zeta in H. destruct H as (_ & H & _). exact H.
Defined.
End UpdateEnvironment.

(* ===================================================================== *)
(** ** The flattened configuration, through the router *)
(* ===================================================================== *)

Section FlatConfigRoute.
Import Js Db Server.
Context (collate : string -> string -> bool).

(** The router splits [<name>.json] into the parameter [<name>]. *)
Lemma json_parameter_append param :
  param <> "" -> json_parameter (param +:+ ".json") = Some param.
Proof.
  intros Hne. unfold json_parameter.
  rewrite length_string_append. simpl String.length.
  assert (0 < String.length param)%nat by (destruct param; [contradiction|simpl; lia]).
  destruct (Nat.ltb_spec 5 (String.length param + 5)) as [_|?]; [|lia].
  unfold toLowerCase. rewrite map_chars_append.
  change (map_chars lower_char ".json") with ".json".
  rewrite endsWith_append. simpl. f_equal. unfold Js.substring.
  replace (String.length param + 5 - 5 - 0)%nat with (String.length param) by lia.
  apply substring_append_prefix.
Qed.

Lemma parameter_append param : param <> "" -> parameter (param +:+ ".json") = true.
Proof. intros Hne. destruct param; [contradiction|reflexivity]. Qed.

(** X6.  On a store that satisfies the constraints, the request
    [GET /environments/<name>.json], for a name that resolves to an
    environment, is answered 200 with an object whose keys are the names of
    that environment's variables other than [__proto__], and whose value at
    each key is the value of the variable of that name. *)
Theorem flat_config_of_environment st param e :
  store_ok st ->
  param <> "" ->
  findEnvironment st param = inr e ->
  exists flatConfig,
    response (app collate st (request GET ["environments"; param +:+ ".json"] no_body))
    = Respond 200 (FlatConfig flatConfig)
    /\ (forall k, is_Some (flatConfig !! k) <->
                  k <> "__proto__" /\
                  exists v, In v (variables st)
                            /\ Variable_.environment_id v = Environment.id e
                            /\ Variable_.name v = k)
    /\ (forall v, In v (variables st) ->
                  Variable_.environment_id v = Environment.id e ->
                  Variable_.name v <> "__proto__" ->
                  flatConfig !! Variable_.name v = Some (Variable_.value v)).
Proof.
  intros Hok Hne He.
  destruct (get_environment_json_spec st param e Hok He) as (flatConfig & Hresp & Hkeys & Hvalues).
  exists flatConfig. split; [|split; assumption].
  unfold app, request. cbn [method path].
  change (literal "environments" "environments") with true.
  rewrite parameter_append by exact Hne. cbn [andb].
  now rewrite json_parameter_append.
Qed.

End FlatConfigRoute.

Section FlatConfigRouteWitness.
Import Js Db Server.

Lemma flat_config_of_environment_witness :
  exists flatConfig,
    response (app String.leb session_store
                (request GET ["environments"; "prod.json"] no_body))
    = Respond 200 (FlatConfig flatConfig)
    /\ flatConfig !! "A" = Some "1" /\ flatConfig !! "B" = Some "2".
Proof.
  destruct (flat_config_of_environment String.leb session_store "prod"
              (Environment.mk 1 "PROD" None)
              session_store_ok ltac:(discriminate) eq_refl)
    as (flatConfig & Hresp & _ & Hvalues).
  exists flatConfig. split; [exact Hresp|]. split.
  - apply (Hvalues (Variable_.mk 1 "A" "1" None false 1));
      [now left | reflexivity | discriminate].
  - apply (Hvalues (Variable_.mk 2 "B" "2" None false 1));
      [right; now left | reflexivity | discriminate].
Defined.
End FlatConfigRouteWitness.

(* ===================================================================== *)
(** ** Creating, reading and deleting a variable *)
(* ===================================================================== *)

Section VariableLifecycle.
Import Js Db Server.

(** What a create answered 201 tells about the request and the store. *)
Lemma post_variable_201 st param e b message v :
  findEnvironment st param = inr e ->
  response (post_variable st param b) = Respond 201 (VariableData message v) ->
  name b = Value (Variable_.name v)
  /\ value b = Value (Variable_.value v)
  /\ is_sensitive b <> Null
  /\ too_long (Variable_.name v) = false
  /\ Variable_findOne st (Environment.id e) (Variable_.name v) = None
  /\ v = Variable_.mk (variables_id_seq st) (Variable_.name v) (Variable_.value v)
           (to_nullable (description b)) (sensitive_or_false b) (Environment.id e).
Proof.
  intros He. unfold post_variable, with_environment. rewrite He.
  assert (Es : is_sensitive b = Null \/
               (if is_defined (is_sensitive b) then is_sensitive b else Value false)
               = Value (sensitive_or_false b)).
  { unfold sensitive_or_false. destruct (is_sensitive b); simpl; auto. }
  destruct Es as [Es|Es].
  { rewrite Es. simpl. unfold Variable_create.
    destruct (name b), (value b); intros H; exfalso;
      match type of H with response (catch ?n ?s ?err) = _ =>
        destruct (response_catch n s err) as [_ H201]; apply H201; now rewrite H end. }
  rewrite Es. unfold Variable_create.
  destruct (name b) as [| |n]; try (intros H; exfalso;
      match type of H with response (catch ?n ?s ?err) = _ =>
        destruct (response_catch n s err) as [_ H201]; apply H201; now rewrite H end).
  destruct (value b) as [| |x]; try (intros H; exfalso;
      match type of H with response (catch ?n ?s ?err) = _ =>
        destruct (response_catch n s err) as [_ H201]; apply H201; now rewrite H end).
  destruct (too_long n) eqn:Hlen; [intros H; exfalso;
      match type of H with response (catch ?n ?s ?err) = _ =>
        destruct (response_catch n s err) as [_ H201]; apply H201; now rewrite H end|].
  destruct (existsb _ _) eqn:Hex; [intros H; exfalso;
      match type of H with response (catch ?n ?s ?err) = _ =>
        destruct (response_catch n s err) as [_ H201]; apply H201; now rewrite H end|].
  destruct (negb _) eqn:Hfk; [intros H; exfalso;
      match type of H with response (catch ?n ?s ?err) = _ =>
        destruct (response_catch n s err) as [_ H201]; apply H201; now rewrite H end|].
  simpl. intros [= _ <-]. simpl.
  assert (Hs : is_sensitive b <> Null).
  { intros E. rewrite E in Es. discriminate. }
  repeat split; auto.
  apply Variable_findOne_absent. intros r Hr E.
  pose proof (existsb_false _ _ r Hex Hr) as H. simpl in H.
  assert (key_eqb (Variable_.key r) (Environment.id e, n) = true) by now apply key_eqb_eq.
  unfold Variable_.key in H at 2. simpl in H. congruence.
Qed.

(** X9.  After a create answered 201, the variable is found under its
    environment by exactly the name of the body, with the value of the
    body; and, on a store that satisfies the constraints and for a name
    other than [__proto__], the flattened configuration of the environment
    maps the name to the value. *)
Theorem post_variable_then_get st param e b message v :
  findEnvironment st param = inr e ->
  response (post_variable st param b) = Respond 201 (VariableData message v) ->
  let st' := db (post_variable st param b) in
  name b = Value (Variable_.name v)
  /\ value b = Value (Variable_.value v)
  /\ Variable_.environment_id v = Environment.id e
  /\ findVariable st' e (Variable_.name v) = inr v
  /\ response (get_variable st' param (Variable_.name v))
     = Respond 200
         (VariableData ("Details for variable: " +:+ Variable_.name v +:+ " in "
                        +:+ Environment.name e) v)
  /\ (store_ok st -> Variable_.name v <> "__proto__" ->
      exists flatConfig,
        response (get_environment_json st' param) = Respond 200 (FlatConfig flatConfig)
        /\ flatConfig !! Variable_.name v = Some (Variable_.value v)).
Proof.
  intros He H201 st'.
  destruct (post_variable_201 st param e b message v He H201)
    as (En & Ex & Hs & Hlen & Hnone & Hv).
  pose proof (post_variable_created st param e b _ _ He En Ex Hs Hlen Hnone) as Hout.
  cbv zeta in Hout. rewrite <- Hv in Hout.
  assert (Hvars : variables st' = (variables st ++ [v])%list)
    by (unfold st'; now rewrite Hout).
  assert (Henvs : environments st' = environments st)
    by (unfold st'; now rewrite Hout).
  assert (He' : findEnvironment st' param = inr e)
    by now rewrite (findEnvironment_ext st' st _ Henvs).
  assert (Henv : Variable_.environment_id v = Environment.id e) by now rewrite Hv.
  assert (Hfind : findVariable st' e (Variable_.name v) = inr v).
  { unfold findVariable, Variable_findOne. rewrite Hvars.
    rewrite find_snoc; [reflexivity|exact Hnone|].
    now rewrite Henv, Z.eqb_refl, String.eqb_refl. }
  split; [exact En|]. split; [exact Ex|]. split; [exact Henv|]. split; [exact Hfind|].
  split.
  - unfold get_variable, with_variable, with_environment. now rewrite He', Hfind.
  - intros Hok Hproto.
    assert (Hok' : store_ok st') by (unfold st'; now apply post_variable_ok).
    destruct (get_environment_json_spec st' param e Hok' He')
      as (flatConfig & Hresp & _ & Hvalues).
    exists flatConfig. split; [exact Hresp|].
    apply Hvalues; [|exact Henv|exact Hproto].
    rewrite Hvars. apply in_app_iff. right. now left.
Qed.

Lemma post_variable_then_get_witness :
  findVariable
    (db (post_variable session_store "dev" (name_value "Db_Url" "pg://dev")))
    (Environment.mk 2 "DEV" None) "Db_Url"
  = inr (Variable_.mk 4 "Db_Url" "pg://dev" None false 2).
Proof.
  pose proof (post_variable_then_get session_store "dev" (Environment.mk 2 "DEV" None)
                (name_value "Db_Url" "pg://dev") "Variable 'Db_Url' created in DEV"
                (Variable_.mk 4 "Db_Url" "pg://dev" None false 2) eq_refl eq_refl) as H.
  cbv zeta in H. destruct H as (_ & _ & _ & H & _). exact H.
Defined.

(** X10.  On a store that satisfies the constraints, the DELETE of a
    variable that was found is answered 204; the row is gone and the other
    rows of both tables are as before; reading the variable, or deleting it
    again, is then answered 404. *)
Theorem delete_variable_then_get st param var_name e v :
  store_ok st ->
  findEnvironment st param = inr e ->
  findVariable st e var_name = inr v ->
  let out := delete_variable st param var_name in
  response out = Respond 204 Empty
  /\ environments (db out) = environments st
  /\ ~ In v (variables (db out))
  /\ (forall w, In w (variables st) -> w <> v -> In w (variables (db out)))
  /\ status_of (response (get_variable (db out) param var_name)) = Some 404
  /\ status_of (response (delete_variable (db out) param var_name)) = Some 404
  /\ db (delete_variable (db out) param var_name) = db out.
Proof.
  intros Hok He Hv out.
  pose proof (findVariable_inr _ _ _ _ Hv) as (Hin & Henv & Hname).
  assert (Hout : out = reply (Variable_destroy st v) (Respond 204 Empty)).
  { unfold out, delete_variable, with_variable, with_environment. now rewrite He, Hv. }
  assert (He' : findEnvironment (db out) param = inr e) by now rewrite Hout.
  assert (Hgone : findVariable (db out) e var_name
                  = inl (Respond 404
                           (Error "Not Found"
                              ("Variable '" +:+ var_name +:+ "' not found in environment '"
                               +:+ Environment.name e +:+ "'.")))).
  { rewrite Hout. unfold findVariable.
    rewrite Variable_findOne_absent; [reflexivity|].
    intros r Hr E. simpl in Hr. apply filter_In in Hr as [Hr Hne].
    apply negb_true_iff, Z.eqb_neq in Hne. apply Hne. f_equal.
    apply (NoDup_map_inj Variable_.key (variables st)); [apply Hok|exact Hr|exact Hin|].
    rewrite E. unfold Variable_.key. congruence. }
  split; [now rewrite Hout|]. split; [now rewrite Hout|]. split; [|split; [|split; [|split]]].
  - rewrite Hout. simpl. intros H. apply filter_In in H as [_ H].
    now rewrite Z.eqb_refl in H.
  - intros w Hw Hne. rewrite Hout. simpl. apply filter_In. split; [exact Hw|].
    apply negb_true_iff, Z.eqb_neq. intros E. apply Hne.
    apply (NoDup_map_inj Variable_.id (variables st)); [apply Hok|exact Hw|exact Hin|exact E].
  - now rewrite (get_variable_of_find _ _ e _ He'), Hgone.
  - unfold delete_variable, with_variable, with_environment. now rewrite He', Hgone.
  - unfold delete_variable, with_variable, with_environment. now rewrite He', Hgone.
Qed.

Lemma delete_variable_then_get_witness :
  variables (db (delete_variable session_store "prod" "A"))
  = [Variable_.mk 2 "B" "2" None false 1; Variable_.mk 3 "A" "3" None false 2]
  /\ status_of (response (get_variable (db (delete_variable session_store "prod" "A"))
                            "prod" "A")) = Some 404.
Proof.
  pose proof (delete_variable_then_get session_store "prod" "A"
                (Environment.mk 1 "PROD" None) (Variable_.mk 1 "A" "1" None false 1)
                session_store_ok eq_refl eq_refl) as H.
  cbv zeta in H. destruct H as (_ & _ & _ & _ & H & _).
  split; [reflexivity | exact H].
Defined.

(** X11.  A create of a variable whose body lacks [name] or [value] (the
    member is absent or [null]), or holds [is_sensitive: null], under an
    environment that was found, is answered 400 and changes nothing; under a
    name that resolves to no environment it is answered 404 and changes
    nothing. *)
Theorem post_variable_rejected st param b :
  (name b = Undefined \/ name b = Null \/ value b = Undefined \/ value b = Null
   \/ is_sensitive b = Null) ->
  db (post_variable st param b) = st
  /\ match findEnvironment st param with
     | inr e => exists message,
         response (post_variable st param b)
         = Respond 400 (Error "Validation Error" message)
     | inl r => response (post_variable st param b) = r /\ status_of r = Some 404
     end.
Proof.
  intros Hbad. unfold post_variable, with_environment.
  destruct (findEnvironment st param) as [r|e] eqn:He.
  - apply findEnvironment_inl in He as [_ ->]. simpl. auto.
  - unfold Variable_create.
    destruct (name b) as [| |n] eqn:En; destruct (value b) as [| |x] eqn:Ex;
      destruct (is_sensitive b) as [| |s] eqn:Es; simpl;
      try (split; [reflexivity | eexists; reflexivity]).
    all: destruct Hbad as [H|[H|[H|[H|H]]]]; discriminate H.
Qed.

Lemma post_variable_rejected_witness :
  response (post_variable session_store "prod" (name_only "C"))
  = Respond 400 (Error "Validation Error" "Variable.value cannot be null")
  /\ db (post_variable session_store "prod" (name_only "C")) = session_store.
Proof.
  pose proof (post_variable_rejected session_store "prod" (name_only "C")
                (or_intror (or_intror (or_introl eq_refl)))) as [Hdb _].
  split; [reflexivity | exact Hdb].
Defined.
End VariableLifecycle.

(* ===================================================================== *)
(** ** Pages *)
(* ===================================================================== *)

Section Pages.
Import Js Db Server.
Context (collate : string -> string -> bool).







End Pages.

Section PagesWitness.
Import Js Db Server.


End PagesWitness.

(* ===================================================================== *)
(** ** Reading a number *)
(* ===================================================================== *)

Section ReadingNumbers.
Import Js Db Server.





End ReadingNumbers.

(* ===================================================================== *)
(** ** The two views of an environment *)
(* ===================================================================== *)

Section TwoViews.
Import Js Db Server.
Context (collate : string -> string -> bool).

Lemma Environment_findByPk_found st e :
  In e (environments st) ->
  exists e', Environment_findByPk st (Environment.id e)
             = Some (e', List.filter
                           (fun v => Variable_.environment_id v =? Environment.id e)
                           (variables st)).
Proof.
  intros He. unfold Environment_findByPk.
  destruct (List.find _ (environments st)) as [e'|] eqn:Hf; [eauto|].
  exfalso. pose proof (find_none _ _ Hf e He) as H. simpl in H.
  now rewrite Z.eqb_refl in H.
Qed.

Lemma json_parameter_none segment :
  endsWith (toLowerCase segment) ".json" = false -> json_parameter segment = None.
Proof. intros H. unfold json_parameter. rewrite H. now rewrite andb_false_r. Qed.

(** X16.  For a name that is not empty and does not end in [.json], the
    requests [GET /environments/<name>.json] and [GET /environments/<name>]
    resolve the same environment: both are answered 404, with the same
    body, or both are answered 200. *)
Theorem json_and_detail_agree st name :
  name <> "" ->
  endsWith (toLowerCase name) ".json" = false ->
  let flat := app collate st (request GET ["environments"; name +:+ ".json"] no_body) in
  let detail := app collate st (request GET ["environments"; name] no_body) in
  match findEnvironment st name with
  | inl r => response flat = r /\ response detail = r /\ status_of r = Some 404
  | inr e =>
      response flat
      = Respond 200
          (FlatConfig
             (flatten (List.filter
                         (fun v => Variable_.environment_id v =? Environment.id e)
                         (variables st))))
      /\ response detail
         = Respond 200
             (EnvironmentData ("Details for environment: " +:+ Environment.name e) e)
  end.
Proof.
  intros Hne Hplain flat detail.
  assert (Hflat : flat = get_environment_json st name).
  { unfold flat, app, request. cbn [method path].
    change (literal "environments" "environments") with true.
    rewrite parameter_append by exact Hne. cbn [andb].
    now rewrite json_parameter_append. }
  assert (Hdetail : detail = get_environment st name).
  { unfold detail, app, request. cbn [method path].
    change (literal "environments" "environments") with true.
    assert (Hp : parameter name = true)
      by (destruct name; [contradiction|reflexivity]).
    rewrite Hp. cbn [andb]. now rewrite json_parameter_none. }
  rewrite Hflat, Hdetail.
  unfold get_environment_json, get_environment, with_environment.
  destruct (findEnvironment st name) as [r|e] eqn:He.
  - apply findEnvironment_inl in He as [_ ->]. auto.
  - apply findEnvironment_inr in He as [Hin _].
    destruct (Environment_findByPk_found st e Hin) as [e' ->]. auto.
Qed.

End TwoViews.

Section TwoViewsWitness.
Import Js Db Server.

Lemma json_and_detail_agree_witness :
  response (app String.leb session_store
              (request GET ["environments"; "dev.json"] no_body))
  = Respond 200 (FlatConfig {[ "A" := "3" ]}).
Proof.
  pose proof (json_and_detail_agree String.leb session_store "dev"
                ltac:(discriminate) eq_refl) as H.
  cbv zeta in H. destruct H as [H _]. exact H.
Defined.
End TwoViewsWitness.

(* ===================================================================== *)
(** ** Creating an environment again *)
(* ===================================================================== *)

Section CreateAgain.
Import Js Db Server.

(** A create that passes every check appends the row and answers 201. *)
Lemma post_environment_success st b n :
  name b = Value n ->
  too_long (toUpperCase n) = false ->
  Environment_findOne st (toUpperCase n) = None ->
  let e := Environment.mk (environments_id_seq st) (toUpperCase n)
                          (to_nullable (description b)) in
  post_environment st b
  = reply {| environments := environments st ++ [e];
             variables := variables st;
             environments_id_seq := environments_id_seq st + 1;
             variables_id_seq := variables_id_seq st |}
          (Respond 201 (EnvironmentData "Environment created successfully" e)).
Proof.
  intros En Hlen Hnone e. unfold post_environment, Environment_create.
  rewrite En. simpl. rewrite Hlen.
  destruct (existsb _ _) eqn:Hex; [|reflexivity].
  exfalso. apply existsb_exists in Hex as (r & Hr & E). apply String.eqb_eq in E.
  now apply (Environment_findOne_none _ _ Hnone r Hr).
Qed.

(** X17.  On a store that requests have built, after the DELETE of an
    environment that was found, a create with the same name, in any letter
    case, is answered 201; the new environment has another id, and none of
    the variables of the deleted one: its flattened configuration is
    empty. *)
Theorem recreate_after_delete st param e b n :
  store_ok st -> names_ok st ->
  findEnvironment st param = inr e ->
  name b = Value n ->
  toUpperCase n = Environment.name e ->
  let deleted := db (delete_environment st param) in
  let out := post_environment deleted b in
  let e' := Environment.mk (environments_id_seq st) (Environment.name e)
                           (to_nullable (description b)) in
  response out = Respond 201 (EnvironmentData "Environment created successfully" e')
  /\ Environment.id e' <> Environment.id e
  /\ findEnvironment (db out) param = inr e'
  /\ response (get_environment_json (db out) param) = Respond 200 (FlatConfig ∅).
Proof.
  intros Hok Hnames He En Hn deleted out e'.
  pose proof (findEnvironment_inr _ _ _ He) as [Hin Hname].
  assert (Hdel : deleted = Environment_destroy st e).
  { unfold deleted, delete_environment, with_environment. now rewrite He. }
  assert (Hok' : store_ok deleted) by (rewrite Hdel; now apply Environment_destroy_ok).
  assert (Hnone : Environment_findOne deleted (toUpperCase n) = None).
  { apply Environment_findOne_absent. intros r Hr E. rewrite Hdel in Hr. simpl in Hr.
    apply filter_In in Hr as [Hr Hne]. apply negb_true_iff, Z.eqb_neq in Hne.
    apply Hne. f_equal.
    apply (NoDup_map_inj Environment.name (environments st));
      [apply Hok|exact Hr|exact Hin|congruence]. }
  assert (Hlen : too_long (toUpperCase n) = false)
    by (rewrite Hn; now apply (environments_name_fits st Hnames)).
  pose proof (post_environment_success deleted b n En Hlen Hnone) as Hout.
  cbv zeta in Hout. fold out in Hout.
  assert (Hseq : environments_id_seq deleted = environments_id_seq st)
    by now rewrite Hdel.
  rewrite Hseq, Hn in Hout. fold e' in Hout.
  assert (Hfresh : Environment.id e' <> Environment.id e).
  { pose proof (environments_id_fresh st Hok e Hin). simpl. lia. }
  assert (He' : findEnvironment (db out) param = inr e').
  { apply (findEnvironment_after_create deleted b "Environment created successfully" e').
    - fold out. now rewrite Hout.
    - simpl. symmetry. exact Hname. }
  split; [now rewrite Hout|]. split; [exact Hfresh|]. split; [exact He'|].
  unfold get_environment_json, with_environment. rewrite He'.
  assert (Hin' : In e' (environments (db out))).
  { rewrite Hout. simpl. apply in_app_iff. right. now left. }
  destruct (Environment_findByPk_found (db out) e' Hin') as [e'' ->].
  assert (Hnovars : List.filter
                      (fun v => Variable_.environment_id v =? Environment.id e')
                      (variables (db out)) = []).
  { destruct (List.filter _ _) as [|v l] eqn:Hf; [reflexivity|]. exfalso.
    assert (Hv : In v (v :: l)) by now left.
    rewrite <- Hf in Hv. apply filter_In in Hv as [Hv Ev]. apply Z.eqb_eq in Ev.
    rewrite Hout in Hv. simpl in Hv.
    pose proof (variables_environment_id_fkey deleted Hok' v Hv) as Hfk.
    apply environment_exists_iff in Hfk as (r & Hr & Er).
    pose proof (environments_id_fresh deleted Hok' r Hr) as Hlt.
    rewrite Hseq in Hlt. simpl in Ev. lia. }
  now rewrite Hnovars.
Qed.

Lemma recreate_after_delete_witness :
  response (get_environment_json
              (db (post_environment (db (delete_environment session_store "prod"))
                     (name_only "Prod")))
              "prod")
  = Respond 200 (FlatConfig ∅).
Proof.
  pose proof (recreate_after_delete session_store "prod" (Environment.mk 1 "PROD" None)
                (name_only "Prod") "Prod" session_store_ok
                (run_names_ok String.leb session Db.empty names_ok_empty)
                eq_refl eq_refl eq_refl) as H.
  cbv zeta in H. destruct H as (_ & _ & _ & H). exact H.
Defined.
End CreateAgain.

(* ===================================================================== *)
(** ** PUT and PATCH of a variable *)
(* ===================================================================== *)

Section PutAndPatch.
Import Js Db Server.

Lemma is_defined_updated_nullable (x : Field string) (current : option string) :
  updated_nullable (if is_defined x then x else of_nullable current) current
  = updated_nullable x current.
Proof. destruct x, current; reflexivity. Qed.

(** On a row whose name fits the column, the update of the PUT handler and
    the update with the body itself have the same result. *)
Lemma Variable_update_put_values st v b :
  too_long (Variable_.name v) = false ->
  environment_id b = None ->
  Variable_update st v (put_values v b) = Variable_update st v (body_values b).
Proof.
  intros Hfit Henv.
  assert (Hrow : updated_row v (put_values v b) = updated_row v (body_values b)).
  { rewrite updated_row_put_values. unfold updated_row, body_values. simpl.
    now rewrite Henv. }
  unfold Variable_update. cbv zeta. rewrite Hrow.
  assert (Hnull :
    (check_not_null_set "Variable" "name" (set_name (put_values v b))
     ++ check_not_null_set "Variable" "value" (set_value (put_values v b))
     ++ check_not_null_set "Variable" "is_sensitive" (set_is_sensitive (put_values v b)))%list
    = (check_not_null_set "Variable" "name" (set_name (body_values b))
       ++ check_not_null_set "Variable" "value" (set_value (body_values b))
       ++ check_not_null_set "Variable" "is_sensitive"
            (set_is_sensitive (body_values b)))%list).
  { simpl. destruct (name b), (value b), (is_sensitive b); reflexivity. }
  rewrite Hnull.
  assert (Hlen : is_defined (set_name (put_values v b))
                 && too_long (Variable_.name (updated_row v (body_values b)))
                 = is_defined (set_name (body_values b))
                   && too_long (Variable_.name (updated_row v (body_values b)))).
  { simpl. destruct (name b); simpl; auto. }
  now rewrite Hlen.
Qed.

(** X18.  On a store where every name fits its column, a PUT of a variable
    and a PATCH with the same body, when the body holds no
    [environment_id], leave the same store and are answered with the same
    status and, on success, the same row: the PUT merges the body into the
    row as the PATCH does. *)
Theorem put_variable_as_patch st param var_name b :
  names_ok st ->
  environment_id b = None ->
  let put := put_variable st param var_name b in
  let patch := patch_variable st param var_name b in
  db put = db patch
  /\ status_of (response put) = status_of (response patch)
  /\ (forall message v',
        response put = Respond 200 (VariableData message v') ->
        exists message', response patch = Respond 200 (VariableData message' v')).
Proof.
  intros Hnames Henv put patch.
  unfold put, patch, put_variable, patch_variable, with_variable, with_environment.
  destruct (findEnvironment st param) as [r|e]; [repeat split; eauto|].
  destruct (findVariable st e var_name) as [r|v] eqn:Hv; [repeat split; eauto|].
  apply findVariable_inr in Hv as (Hin & _ & _).
  rewrite (Variable_update_put_values st v b
             (variables_name_fits st Hnames v Hin) Henv).
  destruct (Variable_update st v (body_values b)) as [st' [v'|err]].
  - split; [reflexivity|]. split; [reflexivity|].
    intros message v'' [= _ <-]. eauto.
  - split; [reflexivity|]. split; [reflexivity|].
    intros message v'' H. exfalso.
    destruct (response_catch unique_or_validation st' err) as [H200 _].
    apply H200. now rewrite H.
Qed.

Lemma put_variable_as_patch_witness :
  db (put_variable session_store "prod" "A" (name_value "A" "one"))
  = db (patch_variable session_store "prod" "A" (name_value "A" "one")).
Proof.
  pose proof (put_variable_as_patch session_store "prod" "A" (name_value "A" "one")
                (run_names_ok String.leb session Db.empty names_ok_empty) eq_refl) as H.
  cbv zeta in H. destruct H as [H _]. exact H.
Defined.
End PutAndPatch.

(* ===================================================================== *)
(** ** The create handler of the earlier server *)
(* ===================================================================== *)

Section EarlierCreate.
Import Js Db.

End EarlierCreate.

(* ===================================================================== *)
(** ** The order of a page *)
(* ===================================================================== *)

Section PageOrder.
Import Js Db Server.
Context (collate : string -> string -> bool).

Lemma Sorted_drop {A} (R : A -> A -> Prop) (l : list A) : forall n,
  Sorted R l -> Sorted R (drop n l).
Proof.
  induction l as [|x l IH]; intros [|n] H; simpl; auto.
  apply IH. now apply Sorted_inv in H.
Qed.

Lemma Sorted_take {A} (R : A -> A -> Prop) (l : list A) : forall n,
  Sorted R l -> Sorted R (take n l).
Proof.
  induction l as [|x l IH]; intros [|n] H; simpl; auto.
  apply Sorted_inv in H as [Hl Hx]. constructor; [now apply IH|].
  destruct l as [|y l]; [destruct n; constructor|].
  destruct n; simpl; constructor. now inversion Hx.
Qed.

(** X20.  For a collation that compares any two names, the items of every
    page of environments are in ascending order of their names. *)
Theorem list_environments_ascending st query_page query_limit count pages page items :
  (forall a b, collate a b = true \/ collate b a = true) ->
  response (list_environments collate st query_page query_limit)
  = Respond 200 (EnvironmentPage count pages page items) ->
  Sorted (fun a b => Is_true (collate (Environment.name a) (Environment.name b))) items.
Proof.
  intros Htotal. unfold list_environments, Environment_findAndCountAll, page_of.
  cbv zeta.
  destruct (_ <? 0); [discriminate|]. destruct (_ <? 0); [discriminate|].
  simpl. intros [= _ _ _ <-].
  apply Sorted_take, Sorted_drop, order_by_Sorted, Htotal.
Qed.
End PageOrder.

Section PageOrderWitness.
Import Js Db Server.

Lemma list_environments_ascending_witness :
  Sorted (fun a b => Is_true (String.leb (Environment.name a) (Environment.name b)))
         [Environment.mk 2 "DEV" None; Environment.mk 1 "PROD" None].
Proof.
  apply (list_environments_ascending String.leb session_store None None 2 1 1
           [Environment.mk 2 "DEV" None; Environment.mk 1 "PROD" None]
           String.leb_total eq_refl).
Defined.
End PageOrderWitness.

(* ===================================================================== *)
(** ** What a create leaves alone *)
(* ===================================================================== *)

Section CreateFrames.
Import Js Db Server.

Lemma find_snoc_other {A} (p : A -> bool) (l : list A) (x : A) :
  p x = false -> List.find p (l ++ [x]) = List.find p l.
Proof.
  intros Hx. induction l as [|y l IH]; simpl; [now rewrite Hx|].
  destruct (p y); [reflexivity | exact IH].
Qed.

Lemma find_app_some {A} (p : A -> bool) (l k : list A) (x : A) :
  List.find p l = Some x -> List.find p (l ++ k) = Some x.
Proof.
  induction l as [|y l IH]; simpl; [discriminate|].
  destruct (p y); [auto | exact IH].
Qed.

(** X21.  A create answered 201 leaves every other lookup as it was: after
    the create of an environment, a parameter that resolved to an
    environment resolves to the same one, and no variable has changed;
    after the create of a variable, the lookup of any other pair of
    environment and name gives what it gave before, and no environment has
    changed. *)
Theorem create_frames st :
  (forall b message e,
     response (post_environment st b) = Respond 201 (EnvironmentData message e) ->
     variables (db (post_environment st b)) = variables st
     /\ forall param e0,
          findEnvironment st param = inr e0 ->
          findEnvironment (db (post_environment st b)) param = inr e0)
  /\ (forall param e b message v,
        findEnvironment st param = inr e ->
        response (post_variable st param b) = Respond 201 (VariableData message v) ->
        environments (db (post_variable st param b)) = environments st
        /\ forall e2 var_name,
             (Environment.id e2, var_name) <> Variable_.key v ->
             findVariable (db (post_variable st param b)) e2 var_name
             = findVariable st e2 var_name).
Proof.
  split.
  - intros b message e H201.
    apply post_environment_created in H201 as (n & _ & _ & _ & _ & Henvs & Hvars).
    split; [exact Hvars|]. intros param e0 He0.
    unfold findEnvironment, Environment_findOne in *. rewrite Henvs.
    destruct (List.find _ (environments st)) as [x|] eqn:Hf; [|discriminate].
    now rewrite (find_app_some _ _ _ _ Hf).
  - intros param e b message v He H201.
    destruct (post_variable_201 st param e b message v He H201)
      as (En & Ex & Hs & Hlen & Hnone & Hv).
    pose proof (post_variable_created st param e b _ _ He En Ex Hs Hlen Hnone) as Hout.
    cbv zeta in Hout. rewrite <- Hv in Hout. rewrite Hout. simpl.
    split; [reflexivity|]. intros e2 var_name Hkey.
    unfold findVariable, Variable_findOne. simpl.
    rewrite find_snoc_other; [reflexivity|].
    destruct (Z.eqb_spec (Variable_.environment_id v) (Environment.id e2)) as [E1|]; [|reflexivity].
    destruct (String.eqb_spec (Variable_.name v) var_name) as [E2|]; [|reflexivity].
    exfalso. apply Hkey. unfold Variable_.key. congruence.
Qed.

Lemma create_frames_witness :
  findEnvironment (db (post_environment session_store (name_only "qa"))) "prod"
  = inr (Environment.mk 1 "PROD" None)
  /\ findVariable (db (post_variable session_store "dev" (name_value "B" "4")))
                  (Environment.mk 1 "PROD" None) "B"
     = findVariable session_store (Environment.mk 1 "PROD" None) "B".
Proof.
  destruct (create_frames session_store) as [Henv Hvar].
  split.
  - apply (proj2 (Henv (name_only "qa") "Environment created successfully"
                    (Environment.mk 3 "QA" None) eq_refl)).
    reflexivity.
  - apply (proj2 (Hvar "dev" (Environment.mk 2 "DEV" None) (name_value "B" "4")
                    "Variable 'B' created in DEV"
                    (Variable_.mk 4 "B" "4" None false 2) eq_refl eq_refl)).
    discriminate.
Defined.
End CreateFrames.
